(** * GitHub PR notifier for blink(1): event monitoring and deduplication core

    A shallow embedding of [github_pr_notifier.py].  The Python object
    [GitHubPRMonitor] becomes the record [Monitor]; its methods become
    functions in a small state-and-exception monad, because the source
    mutates [self.processed_events] and [self.last_check] and relies on
    [try]/[except] for its control flow.  The answers of the [gh] command
    line tool, the clock and the blink(1) device are inputs of the model.

    Conventions of the model:
    - a key of a JSON object may be absent (the source catches [KeyError]);
      a key that is present holds a value of the type the source expects;
    - a character of a Rocq string stands for one character of a Python
      [str], so [String.length] is [len];
    - an instant is an integer, and [datetime.fromisoformat] is a parameter
      of the development;
    - log lines and [time.sleep] are left out: they change neither the
      monitor nor the flashes. *)

From Stdlib Require Import Ascii String ZArith.
From stdpp Require Import gmap strings list pretty.

Local Open Scope string_scope.
Local Open Scope list_scope.

(** ** Exceptions and the monad *)

(** The exception classes the source raises or catches. *)
Inductive exn : Type :=
  | CalledProcessError
  | JSONDecodeError
  | KeyError (key : string)
  | ValueError
  | FileNotFoundError
  | Blink1ConnectionFailed
  | Exception (msg : string).

(** A computation ends normally with a value, or by raising; in both cases
    the mutations done so far stay. *)
Inductive res (S A : Type) : Type :=
  | Ret (a : A) (s : S)
  | Raise (e : exn) (s : S).
Arguments Ret {S A} a s.
Arguments Raise {S A} e s.

Definition M (S A : Type) : Type := S -> res S A.

Definition ret {S A} (a : A) : M S A := fun s => Ret a s.
Definition raise {S A} (e : exn) : M S A := fun s => Raise e s.
Definition bind {S A B} (m : M S A) (k : A -> M S B) : M S B :=
  fun s => match m s with
           | Ret a s' => k a s'
           | Raise e s' => Raise e s'
           end.
Definition get {S} : M S S := fun s => Ret s s.
Definition modify {S} (f : S -> S) : M S unit := fun s => Ret tt (f s).

Notation "'let!' x ':=' c 'in' k" := (bind c (fun x => k))
  (at level 10, x name, c at level 100, k at level 200).
Notation "c ';;' k" := (bind c (fun _ => k))
  (at level 100, k at level 200, right associativity).

(** [for x in l: body(x)] *)
Fixpoint for_each {S X} (l : list X) (body : X -> M S unit) : M S unit :=
  match l with
  | [] => ret tt
  | x :: l' => body x ;; for_each l' body
  end.

(** The state a computation stopped in. *)
Definition final {S A} (r : res S A) : S :=
  match r with Ret _ s => s | Raise _ s => s end.

(** ** Data *)

(** [PREvent]: the dataclass of the source. *)
Record PREvent : Type := mkPREvent {
  pr_number : Z;
  event_type : string;
  author : string;
  created_at : string;
  body : option string
}.

(** The JSON records printed by [gh pr view --json comments] and
    [--json reviews].  A key of a JSON object may be absent, so every field
    is an option; a present field has the type the source expects. *)
Record Author : Type := mkAuthor { login : option string }.

Record RawComment : Type := mkRawComment {
  c_id : option string;
  c_author : option Author;
  c_createdAt : option string;
  c_body : option string
}.

Record RawReview : Type := mkRawReview {
  r_id : option string;
  r_author : option Author;
  r_submittedAt : option string;
  r_state : option string;
  r_body : option string
}.

(** One item of [gh search prs --json number,title,repository,url]. *)
Record Repository : Type := mkRepository { nameWithOwner : option string }.

Record SearchItem : Type := mkSearchItem {
  i_number : option Z;
  i_title : option string;
  i_repository : option Repository;
  i_url : option string
}.

(** The dict built by [get_user_prs] for each open pull request. *)
Record PR : Type := mkPR {
  number : Z;
  title : string;
  repository : string;
  url : string
}.

(** What one [subprocess.run(..., check=True)] followed by [json.loads]
    gives: a non-zero exit status, output that is not JSON, or the data. *)
Inductive GhOut (A : Type) : Type :=
  | GhCalledProcessError
  | GhJSONDecodeError
  | GhJson (data : A).
Arguments GhCalledProcessError {A}.
Arguments GhJSONDecodeError {A}.
Arguments GhJson {A} data.

(** The two answers of [gh pr view] for one pull request; [None] is a JSON
    object without the key ['comments'] (resp. ['reviews']). *)
Record View : Type := mkView {
  view_comments : GhOut (option (list RawComment));
  view_reviews : GhOut (option (list RawReview))
}.

(** The blink(1) handle. *)
Record Blink1 : Type := mkBlink1 { serial_number : string }.

(** The fields of [GitHubPRMonitor]. *)
Record Monitor : Type := mkMonitor {
  username : string;
  poll_interval : Z;
  test_mode : bool;
  processed_events : gset string;
  last_check : Z;
  blink1 : option Blink1
}.

(** [self.processed_events.add(event_id)] *)
Definition add_processed (event_id : string) (m : Monitor) : Monitor :=
  {| username := username m; poll_interval := poll_interval m;
     test_mode := test_mode m;
     processed_events := {[ event_id ]} ∪ processed_events m;
     last_check := last_check m; blink1 := blink1 m |}.

(** [self.last_check = t] *)
Definition set_last_check (t : Z) (m : Monitor) : Monitor :=
  {| username := username m; poll_interval := poll_interval m;
     test_mode := test_mode m; processed_events := processed_events m;
     last_check := t; blink1 := blink1 m |}.

(** ** Event identities (ghost) *)

(** The remote record an event stems from.  The source never builds this
    tuple: it formats it into the string [event_id].  The model tags every
    appended [PREvent] with it so that "the same event" can be named in
    statements; no operation of the model reads a tag. *)
Inductive Origin : Type := FromComment | FromReview.

Record EventIdentity : Type := mkIdentity {
  origin : Origin;
  id_repo : string;
  id_pr : Z;
  id_raw : string
}.

Global Instance Origin_eq_dec : EqDecision Origin.
Proof. solve_decision. Defined.
Global Instance EventIdentity_eq_dec : EqDecision EventIdentity.
Proof. solve_decision. Defined.

(** The f-strings [f"comment_{repo}_{pr_number}_{id}"] and
    [f"review_{repo}_{pr_number}_{id}"]. *)
Definition comment_event_id (repo : string) (pr : Z) (raw : string) : string :=
  "comment_" +:+ repo +:+ "_" +:+ pretty pr +:+ "_" +:+ raw.
Definition review_event_id (repo : string) (pr : Z) (raw : string) : string :=
  "review_" +:+ repo +:+ "_" +:+ pretty pr +:+ "_" +:+ raw.

Definition event_key (i : EventIdentity) : string :=
  match origin i with
  | FromComment => comment_event_id (id_repo i) (id_pr i) (id_raw i)
  | FromReview => review_event_id (id_repo i) (id_pr i) (id_raw i)
  end.

Definition TaggedEvent : Type := EventIdentity * PREvent.

(** The local state of [get_pr_comments]: [self] and the list [events]
    (the Python list is [map snd] of the tagged one). *)
Record Frame : Type := mkFrame {
  self : Monitor;
  events : list TaggedEvent
}.

(** [events.append(ev)] *)
Definition append_event (te : TaggedEvent) : M Frame unit :=
  modify (fun fr => {| self := self fr; events := events fr ++ [te] |}).

(** [self.processed_events.add(event_id)] inside [get_pr_comments] *)
Definition record_processed (event_id : string) : M Frame unit :=
  modify (fun fr => {| self := add_processed event_id (self fr);
                       events := events fr |}).

(** ** Strings *)

(** [s.replace('Z', '+00:00')] *)
Fixpoint replace_Z (s : string) : string :=
  match s with
  | EmptyString => EmptyString
  | String c s' =>
      if Ascii.eqb c "Z"%char then "+00:00" +:+ replace_Z s'
      else String c (replace_Z s')
  end.

(** [b[:100] + '...' if len(b) > 100 else b] *)
Definition excerpt (b : string) : string :=
  if (100 <? String.length b)%nat then substring 0 100 b +:+ "..." else b.

(** [d[key]] on a JSON object: [KeyError] when the key is absent. *)
Definition subscript {S A} (key : string) (field : option A) : M S A :=
  match field with
  | Some v => ret v
  | None => raise (KeyError key)
  end.

(** [record['author']['login']] *)
Definition author_login {S} (a : option Author) : M S string :=
  let! au := subscript "author" a in
  subscript "login" (login au).

(** [subprocess.run(...)] with [check=True], then [json.loads]. *)
Definition run_gh {S A} (out : GhOut A) : M S A :=
  match out with
  | GhCalledProcessError => raise CalledProcessError
  | GhJSONDecodeError => raise JSONDecodeError
  | GhJson data => ret data
  end.

(** ** The monitor *)

(** What a blink(1) does with one [play_pattern(pattern)] call: [true] when
    the call returns, [false] when it raises. *)
Definition Device : Type := string -> bool.

(** The outcome of one [flash_for_event] call. *)
Inductive Flash : Type :=
  | NoDevice                      (* blink(1) not available, flash skipped *)
  | Played (pattern : string)     (* [play_pattern] returned *)
  | PlayFailed (pattern : string) (* [play_pattern] raised; caught, logged *)
  | NoPattern.                    (* no branch for this event type *)

Record Notification : Type := mkNotification {
  n_tag : EventIdentity;
  n_event : PREvent;
  n_flash : Flash
}.

(** Everything one poll cycle reads from outside: the answer of
    [gh search prs], the answers of [gh pr view] for the i-th listed pull
    request, the behaviour of the device at the k-th flash, and the clock
    when the cycle ends. *)
Record Cycle : Type := mkCycle {
  search : GhOut (list SearchItem);
  views : nat -> View;
  device : nat -> Device;
  now : Z
}.

(** Instants are microseconds since the epoch, the resolution of
    [datetime]. *)
Definition one_hour : Z := 3600000000.

(** The outcome of [Blink1()] and of [gh auth status]. *)
Inductive Blink1Out : Type :=
  | Connected (dev : Blink1)
  | ConnectionFailed.

Inductive GhAuthOut : Type :=
  | AuthOk
  | AuthCalledProcessError
  | AuthFileNotFoundError.

Section Monitor.

(** [datetime.fromisoformat]: the instant a string denotes, or [None] where
    Python raises [ValueError]. *)
Variable fromisoformat : string -> option Z.

Definition parse_datetime {S} (s : string) : M S Z :=
  match fromisoformat (replace_Z s) with
  | Some t => ret t
  | None => raise ValueError
  end.

(** [True if self.test_mode else record['author']['login'] != self.username] *)
Definition author_filter {S} (me : Monitor) (a : option Author) : M S bool :=
  if test_mode me then ret true
  else let! l := author_login a in
       ret (negb (String.eqb l (username me))).

(** The body of [for comment in pr_data['comments']]. *)
Definition comment_body (repo : string) (pr_number : Z) (comment : RawComment)
  : M Frame unit :=
  let! createdAt := subscript "createdAt" (c_createdAt comment) in
  let! created_at := parse_datetime createdAt in
  let! fr := get in
  let! keep := author_filter (self fr) (c_author comment) in
  if (last_check (self fr) <? created_at)%Z && keep then
    let! raw_id := subscript "id" (c_id comment) in
    let event_id := comment_event_id repo pr_number raw_id in
    if bool_decide (event_id ∉ processed_events (self fr)) then
      let! who := author_login (c_author comment) in
      let! b := subscript "body" (c_body comment) in
      append_event
        (mkIdentity FromComment repo pr_number raw_id,
         {| pr_number := pr_number;
            event_type := "comment";
            author := who;
            created_at := createdAt;
            body := Some (excerpt b) |}) ;;
      record_processed event_id
    else ret tt
  else ret tt.

(** [review['state'] in ['APPROVED', 'CHANGES_REQUESTED', 'COMMENTED']] *)
Definition recognized_state (st : string) : bool :=
  bool_decide (st ∈ ["APPROVED"; "CHANGES_REQUESTED"; "COMMENTED"]).

(** The [if]/[elif]/[else] that picks [event_type]. *)
Definition review_event_type (st : string) : string :=
  if String.eqb st "APPROVED" then "approved"
  else if String.eqb st "CHANGES_REQUESTED" then "changes_requested"
  else "commented".

(** The body of [for review in pr_data['reviews']]. *)
Definition review_body (repo : string) (pr_number : Z) (review : RawReview)
  : M Frame unit :=
  let! st := subscript "state" (r_state review) in
  if recognized_state st then
    let! submittedAt := subscript "submittedAt" (r_submittedAt review) in
    let! created_at := parse_datetime submittedAt in
    let! fr := get in
    let! keep := author_filter (self fr) (r_author review) in
    if (last_check (self fr) <? created_at)%Z && keep then
      let! raw_id := subscript "id" (r_id review) in
      let event_id := review_event_id repo pr_number raw_id in
      if bool_decide (event_id ∉ processed_events (self fr)) then
        let! who := author_login (r_author review) in
        append_event
          (mkIdentity FromReview repo pr_number raw_id,
           {| pr_number := pr_number;
              event_type := review_event_type st;
              author := who;
              created_at := submittedAt;
              body := Some (default "" (r_body review)) |}) ;;
        record_processed event_id
      else ret tt
    else ret tt
  else ret tt.

(** The [try] block of [get_pr_comments]. *)
Definition get_pr_comments_try (repo : string) (pr_number : Z) (v : View)
  : M Frame unit :=
  let! pr_data := run_gh (view_comments v) in
  match pr_data with
  | Some comments => for_each comments (comment_body repo pr_number)
  | None => ret tt
  end ;;
  let! pr_data := run_gh (view_reviews v) in
  match pr_data with
  | Some reviews => for_each reviews (review_body repo pr_number)
  | None => ret tt
  end.

(** [except (subprocess.CalledProcessError, json.JSONDecodeError, KeyError)] *)
Definition caught (e : exn) : bool :=
  match e with
  | CalledProcessError | JSONDecodeError | KeyError _ => true
  | _ => false
  end.

(** [get_pr_comments]: [events] starts empty, the [try] block runs, a caught
    exception is logged, and [events] is returned as it then is.  Any other
    exception leaves the method. *)
Definition get_pr_comments (repo : string) (pr_number : Z) (v : View)
  : M Monitor (list TaggedEvent) :=
  fun me =>
    match get_pr_comments_try repo pr_number v {| self := me; events := [] |} with
    | Ret _ fr => Ret (events fr) (self fr)
    | Raise e fr =>
        if caught e then Ret (events fr) (self fr) else Raise e (self fr)
    end.

(** The dict literal built for one search item. *)
Definition pr_of_item {S} (item : SearchItem) : M S PR :=
  let! n := subscript "number" (i_number item) in
  let! t := subscript "title" (i_title item) in
  let! r := subscript "repository" (i_repository item) in
  let! nwo := subscript "nameWithOwner" (nameWithOwner r) in
  let! u := subscript "url" (i_url item) in
  ret {| number := n; title := t; repository := nwo; url := u |}.

Fixpoint build_prs {S} (data : list SearchItem) : M S (list PR) :=
  match data with
  | [] => ret []
  | item :: data' =>
      let! pr := pr_of_item item in
      let! prs := build_prs data' in
      ret (pr :: prs)
  end.

(** [get_user_prs]: a failing or unparsable search is caught and gives no
    pull requests; the loop over the items is outside the [try]. *)
Definition get_user_prs {S} (out : GhOut (list SearchItem)) : M S (list PR) :=
  match out with
  | GhCalledProcessError | GhJSONDecodeError => ret []
  | GhJson data => build_prs data
  end.

(** The pattern [flash_for_event] plays for an event type, if any. *)
Definition pattern_for (ty : string) : option string :=
  if String.eqb ty "comment" then Some "3, #0000FF,0.3,0, #000000,0.3,0"
  else if String.eqb ty "approved" then Some "5, #00FF00,0.5,0, #000000,0.2,0"
  else if String.eqb ty "changes_requested" then Some "2, #FF0000,1.0,0, #000000,0.5,0"
  else if String.eqb ty "commented" then Some "3, #FFFF00,0.3,0, #000000,0.3,0"
  else None.

(** [flash_for_event]: nothing without a device; otherwise the pattern of
    the event type is played, and an exception of the device is caught. *)
Definition flash_for_event (me : Monitor) (event : PREvent) (dev : Device) : Flash :=
  match blink1 me with
  | None => NoDevice
  | Some _ =>
      match pattern_for (event_type event) with
      | Some p => if dev p then Played p else PlayFailed p
      | None => NoPattern
      end
  end.

(** The first loop of [check_for_updates]; [i] counts the pull requests
    already fetched in this cycle. *)
Fixpoint fetch_all (i : nat) (prs : list PR) (vs : nat -> View)
    (new_events : list TaggedEvent) : M Monitor (list TaggedEvent) :=
  match prs with
  | [] => ret new_events
  | pr :: prs' =>
      let repo := repository pr in
      let pr_number := number pr in
      let! events := get_pr_comments repo pr_number (vs i) in
      fetch_all (S i) prs' vs (new_events ++ events)
  end.

(** The second loop of [check_for_updates]: one flash per new event, in
    order. *)
Definition emit (me : Monitor) (devs : nat -> Device)
    (new_events : list TaggedEvent) : list Notification :=
  imap (fun k te => {| n_tag := te.1; n_event := te.2;
                       n_flash := flash_for_event me te.2 (devs k) |})
       new_events.

(** The part of [check_for_updates] before the first flash. *)
Definition collect (c : Cycle) : M Monitor (list TaggedEvent) :=
  let! prs := get_user_prs (search c) in
  fetch_all 0 prs (views c) [].

Definition check_for_updates (c : Cycle) : M Monitor (list Notification) :=
  let! new_events := collect c in
  let! me := get in
  let notes := emit me (device c) new_events in
  modify (set_last_check (now c)) ;;
  ret notes.

(** [run]: the loop [while True], over the cycles of a finite prefix of the
    process lifetime.  An exception leaving [check_for_updates] is logged
    and the loop goes on. *)
Fixpoint run (cycles : list Cycle) (me : Monitor) : Monitor * list Notification :=
  match cycles with
  | [] => (me, [])
  | c :: cycles' =>
      match check_for_updates c me with
      | Ret notes me' =>
          let '(me'', rest) := run cycles' me' in (me'', notes ++ rest)
      | Raise _ me' => run cycles' me'
      end
  end.

(** [_init_blink1] *)
Definition _init_blink1 (out : Blink1Out) : option Blink1 :=
  match out with
  | Connected dev => Some dev
  | ConnectionFailed => None
  end.

(** [_check_gh_cli] *)
Definition _check_gh_cli {S} (out : GhAuthOut) : M S unit :=
  match out with
  | AuthOk => ret tt
  | AuthCalledProcessError => raise (Exception "gh CLI authentication required")
  | AuthFileNotFoundError => raise (Exception "gh CLI not installed")
  end.

(** [GitHubPRMonitor.__init__]; [clock] is [datetime.now(timezone.utc)]. *)
Definition __init__ (username : string) (poll_interval : Z) (test_mode : bool)
    (clock : Z) (b : Blink1Out) (auth : GhAuthOut) : res Monitor unit :=
  _check_gh_cli auth
    {| username := username; poll_interval := poll_interval;
       test_mode := test_mode; processed_events := ∅;
       last_check := (clock - one_hour)%Z;
       blink1 := _init_blink1 b |}.

(** ** How a fetch changes the monitor *)

Definition keys_of (l : list TaggedEvent) : list string :=
  (fun te => event_key te.1) <$> l.

(** The fields no method assigns after construction. *)
Definition same_config (a b : Monitor) : Prop :=
  username a = username b /\ poll_interval a = poll_interval b /\
  test_mode a = test_mode b /\ blink1 a = blink1 b.

(** [grows a b new]: [b] is [a] after the events [new] were appended and
    recorded: the ledger gained exactly their ids, each of them once and
    none of them known before; nothing else changed. *)
Definition grows (a b : Monitor) (new : list TaggedEvent) : Prop :=
  processed_events b = list_to_set (keys_of new) ∪ processed_events a /\
  NoDup (keys_of new) /\
  (forall k, k ∈ keys_of new -> k ∉ processed_events a) /\
  last_check b = last_check a /\
  same_config a b.

Definition extends (fr fr' : Frame) (new : list TaggedEvent) : Prop :=
  events fr' = events fr ++ new /\ grows (self fr) (self fr') new.

(** The frame after [events.append(te)] and [processed_events.add(key)]. *)
Definition push (te : TaggedEvent) (fr : Frame) : Frame :=
  {| self := add_processed (event_key te.1) (self fr);
     events := events fr ++ [te] |}.

(** What [comment_body] does: either it appends nothing and leaves the frame
    as it was (normally or by raising), or it appends one event. *)
Definition comment_event (repo : string) (n : Z) (c : RawComment) (me : Monitor)
    (te : TaggedEvent) : Prop :=
  exists raw ca t who b,
    c_id c = Some raw /\ c_createdAt c = Some ca /\
    fromisoformat (replace_Z ca) = Some t /\ (last_check me < t)%Z /\
    c_author c = Some (mkAuthor (Some who)) /\
    (test_mode me = false -> who <> username me) /\
    c_body c = Some b /\
    (comment_event_id repo n raw ∉ processed_events me) /\
    te = (mkIdentity FromComment repo n raw,
          mkPREvent n "comment" who ca (Some (excerpt b))).

Definition review_event (repo : string) (n : Z) (r : RawReview) (me : Monitor)
    (te : TaggedEvent) : Prop :=
  exists st raw sa t who,
    r_state r = Some st /\ recognized_state st = true /\
    r_id r = Some raw /\ r_submittedAt r = Some sa /\
    fromisoformat (replace_Z sa) = Some t /\ (last_check me < t)%Z /\
    r_author r = Some (mkAuthor (Some who)) /\
    (test_mode me = false -> who <> username me) /\
    (review_event_id repo n raw ∉ processed_events me) /\
    te = (mkIdentity FromReview repo n raw,
          mkPREvent n (review_event_type st) who sa
            (Some (default "" (r_body r)))).

(** What every appended event satisfies, whatever the ledger was: it is
    newer than the watermark, it passed the author filter, and its type
    fits its origin. *)
Definition admissible (me : Monitor) (te : TaggedEvent) : Prop :=
  (exists t, fromisoformat (replace_Z (created_at te.2)) = Some t /\
             (last_check me < t)%Z) /\
  (test_mode me = false -> author te.2 <> username me) /\
  match origin te.1 with
  | FromComment => event_type te.2 = "comment"
  | FromReview =>
      event_type te.2 ∈ ["approved"; "changes_requested"; "commented"]
  end.

Definition from_subject (repo : string) (n : Z) (te : TaggedEvent) : Prop :=
  id_repo te.1 = repo /\ id_pr te.1 = n /\ pr_number te.2 = n.

(** One call of [get_pr_comments] seen from its frame. *)
Definition fetched (repo : string) (n : Z) (fr fr' : Frame)
    (new : list TaggedEvent) : Prop :=
  extends fr fr' new /\
  Forall (admissible (self fr)) new /\
  Forall (from_subject repo n) new.

(** A retrieval step of [get_pr_comments] failed: the [try] block was left
    by an exception that the [except] clause catches. *)
Definition retrieval_failed (repo : string) (n : Z) (v : View) (me : Monitor)
  : Prop :=
  exists e fr,
    get_pr_comments_try repo n v {| self := me; events := [] |} = Raise e fr /\
    caught e = true.

(** The list [events] a call returned, without the tags. *)
Definition returned_events {S} (r : res S (list TaggedEvent)) : option (list PREvent) :=
  match r with
  | Ret evs _ => Some evs.*2
  | Raise _ _ => None
  end.

(** Reviews the loop does more with than read ['state']: those in a
    recognized state, and those without the key (they raise). *)
Definition keep_review (r : RawReview) : bool :=
  match r_state r with
  | Some st => recognized_state st
  | None => true
  end.

(** The same answers of [gh], without the reviews in any other state. *)
Definition drop_unrecognized_reviews (v : View) : View :=
  {| view_comments := view_comments v;
     view_reviews :=
       match view_reviews v with
       | GhJson (Some reviews) => GhJson (Some (List.filter keep_review reviews))
       | out => out
       end |}.

Definition drop_unrecognized (c : Cycle) : Cycle :=
  {| search := search c;
     views := fun i => drop_unrecognized_reviews (views c i);
     device := device c;
     now := now c |}.




(** Construction did not give a monitor. *)
Definition startup_fails (r : res Monitor unit) : Prop :=
  exists e m, r = Raise e m.

(** ** Sample inputs *)

Definition demo_fromisoformat (s : string) : option Z :=
  if String.eqb s "2024-05-01T10:00:00+00:00" then Some 1714557600000000%Z
  else if String.eqb s "2024-05-01T12:00:00+00:00" then Some 1714564800000000%Z
  else None.

(** A monitor for "octocat" whose watermark is 2024-05-01T09:00:00Z. *)
Definition demo_monitor : Monitor :=
  {| username := "octocat"; poll_interval := 60; test_mode := false;
     processed_events := ∅; last_check := 1714554000000000;
     blink1 := Some (mkBlink1 "2000ABCD") |}.

Definition demo_comment (raw who at_ text : string) : RawComment :=
  {| c_id := Some raw; c_author := Some (mkAuthor (Some who));
     c_createdAt := Some at_; c_body := Some text |}.

Definition demo_review (raw who at_ st text : string) : RawReview :=
  {| r_id := Some raw; r_author := Some (mkAuthor (Some who));
     r_submittedAt := Some at_; r_state := Some st; r_body := Some text |}.

Definition hubot_comment : RawComment :=
  demo_comment "IC_1" "hubot" "2024-05-01T10:00:00Z" "Looks good to me".

(** A comment without the key ['createdAt']. *)
Definition broken_comment : RawComment :=
  {| c_id := Some "IC_0"; c_author := Some (mkAuthor (Some "hubot"));
     c_createdAt := None; c_body := Some "?" |}.

(** The comments arrive, the reviews request fails. *)
Definition reviews_fail_view : View :=
  {| view_comments := GhJson (Some [hubot_comment]);
     view_reviews := GhCalledProcessError |}.

(** A review body of 101 characters. *)
Definition long_body : string :=
  "This change looks fine overall, but the retry loop in the fetcher should back off between my attempts".

Definition long_review : RawReview :=
  demo_review "PRR_1" "hubot" "2024-05-01T10:00:00Z" "APPROVED" long_body.

Definition long_comment : RawComment :=
  demo_comment "IC_9" "hubot" "2024-05-01T10:00:00Z" long_body.

Definition approving_review : RawReview :=
  demo_review "PRR_2" "hubot" "2024-05-01T12:00:00Z" "APPROVED" "".

Definition dismissed_review : RawReview :=
  demo_review "PRR_3" "hubot" "2024-05-01T12:00:00Z" "DISMISSED" "".

Definition own_comment : RawComment :=
  demo_comment "IC_2" "octocat" "2024-05-01T12:00:00Z" "Thanks!".

Definition demo_item (repo : string) (n : Z) : SearchItem :=
  {| i_number := Some n; i_title := Some "Fix the fetcher";
     i_repository := Some (mkRepository (Some repo));
     i_url := Some "https://github.com/octo/repo/pull/7" |}.

Definition full_view : View :=
  {| view_comments := GhJson (Some [hubot_comment]);
     view_reviews := GhJson (Some [approving_review]) |}.

Definition failing_view : View :=
  {| view_comments := GhCalledProcessError;
     view_reviews := GhJson (Some [approving_review]) |}.

(** One pull request, fully answered; the clock at the end of the cycle
    (09:30) is behind the timestamps of the records. *)
Definition demo_cycle : Cycle :=
  {| search := GhJson [demo_item "octo/repo" 7];
     views := fun _ => full_view;
     device := fun _ _ => true;
     now := 1714555800000000 |}.

(** Two pull requests: the requests for the first fail, the second is
    answered; the device raises on every pattern. *)
Definition degraded_cycle : Cycle :=
  {| search := GhJson [demo_item "octo/repo" 7; demo_item "octo/other" 3];
     views := fun i => match i with O => failing_view | _ => full_view end;
     device := fun _ _ => false;
     now := 1714568400000000 |}.

Definition demo_frame : Frame := {| self := demo_monitor; events := [] |}.

Definition test_frame : Frame :=
  {| self := {| username := "octocat"; poll_interval := 60; test_mode := true;
                processed_events := ∅; last_check := 1714554000000000;
                blink1 := None |};
     events := [] |}.

(** ** The command line *)

(** The parsed arguments of [main]. *)
Record Args : Type := mkArgs {
  a_username : option string;
  a_interval : Z;
  a_test : bool;
  a_test_mode : bool
}.

(** The outcome of [gh api user --jq .login]. *)
Inductive GhUserOut : Type :=
  | UserCalledProcessError
  | UserFileNotFoundError
  | UserStdout (stdout : string).

(** How [main] ends: [exit(1)] for want of a username, [exit(0)] after the
    device test (with whether it printed "Test complete"), an exception
    nobody catches, or the monitor loop over the given cycles. *)
Inductive Outcome : Type :=
  | ExitUsernameRequired
  | ExitAfterTest (complete : bool)
  | Uncaught (e : exn)
  | Ran (m : Monitor) (notes : list Notification).

(** Truth value of an [Optional[str]]: [None] and [''] are false. *)
Definition truthy (s : option string) : bool :=
  match s with
  | Some (String _ _) => true
  | _ => false
  end.

(** [a or b] *)
Definition py_or (a b : option string) : option string :=
  if truthy a then a else b.

(** The three [play_pattern] calls of [--test]; an exception of any of
    them, or of [Blink1()], ends the test. *)
Definition blink_test (b : Blink1Out) (dev : Device) : bool :=
  match b with
  | Connected _ =>
      dev "2, #FF0000,0.5,0, #000000,0.5,0" &&
      dev "2, #00FF00,0.5,0, #000000,0.5,0" &&
      dev "2, #0000FF,0.5,0, #000000,0.5,0"
  | ConnectionFailed => false
  end.

Section Main.

(** [str.strip] *)
Variable strip : string -> string.

(** The first part of [main]: [--username], else [GITHUB_USERNAME], else
    the login [gh] reports. *)
Definition resolve_username (arg env : option string) (gh : GhUserOut)
  : string + Outcome :=
  match py_or arg env with
  | Some (String a u) => inl (String a u)
  | _ =>
      match gh with
      | UserStdout stdout => inl (strip stdout)
      | UserCalledProcessError => inr ExitUsernameRequired
      | UserFileNotFoundError => inr (Uncaught FileNotFoundError)
      end
  end.

Definition main (args : Args) (env : option string) (gh_user : GhUserOut)
    (clock : Z) (b : Blink1Out) (test_dev : Device) (auth : GhAuthOut)
    (cycles : list Cycle) : Outcome :=
  match resolve_username (a_username args) env gh_user with
  | inr out => out
  | inl username =>
      if a_test args then ExitAfterTest (blink_test b test_dev)
      else
        match __init__ username (a_interval args) (a_test_mode args) clock b auth with
        | Ret _ monitor =>
            let '(m, notes) := run cycles monitor in Ran m notes
        | Raise e _ => Uncaught e
        end
  end.

End Main.

(** ** Further notions for the properties *)

(** A search item without one of the keys [get_user_prs] reads. *)
Definition item_incomplete (item : SearchItem) : Prop :=
  i_number item = None \/ i_title item = None \/ i_repository item = None \/
  i_repository item = Some (mkRepository None) \/ i_url item = None.

(** The same cycle with another device. *)
Definition with_device (devs : nat -> Device) (c : Cycle) : Cycle :=
  {| search := search c; views := views c; device := devs; now := now c |}.

(** A complete comment (review) with raw id [raw] that is newer than the
    watermark of [me] and passes its author filter. *)
Definition comment_qualifies (me : Monitor) (c : RawComment) (raw : string) : Prop :=
  exists ca t who b,
    c = mkRawComment (Some raw) (Some (mkAuthor (Some who))) (Some ca) (Some b) /\
    fromisoformat (replace_Z ca) = Some t /\ (last_check me < t)%Z /\
    (test_mode me = true \/ who <> username me).

Definition review_qualifies (me : Monitor) (r : RawReview) (raw : string) : Prop :=
  exists sa t who st rb,
    r = mkRawReview (Some raw) (Some (mkAuthor (Some who))) (Some sa) (Some st) rb /\
    recognized_state st = true /\
    fromisoformat (replace_Z sa) = Some t /\ (last_check me < t)%Z /\
    (test_mode me = true \/ who <> username me).

(** The flash pattern of each event type. *)
Definition pattern_table (ty p : string) : Prop :=
  (ty = "comment" /\ p = "3, #0000FF,0.3,0, #000000,0.3,0") \/
  (ty = "approved" /\ p = "5, #00FF00,0.5,0, #000000,0.2,0") \/
  (ty = "changes_requested" /\ p = "2, #FF0000,1.0,0, #000000,0.5,0") \/
  (ty = "commented" /\ p = "3, #FFFF00,0.3,0, #000000,0.3,0").


(** The comments and reviews a view holds, if any. *)
Definition comments_of (v : View) : list RawComment :=
  match view_comments v with
  | GhJson (Some comments) => comments
  | _ => []
  end.

Definition reviews_of (v : View) : list RawReview :=
  match view_reviews v with
  | GhJson (Some reviews) => reviews
  | _ => []
  end.

(** The raw ids of a list of tagged events, as the JSON field holds them. *)
Definition raw_ids (l : list TaggedEvent) : list (option string) :=
  (fun te => Some (id_raw te.1)) <$> l.


(** ** More sample inputs *)

(** The list a call returned ([[]] when it raised). *)
Definition result_list {S A} (r : res S (list A)) : list A :=
  match r with
  | Ret l _ => l
  | Raise _ _ => []
  end.

(** A [strip] for ASCII white space. *)
Fixpoint demo_lstrip (s : string) : string :=
  match s with
  | EmptyString => EmptyString
  | String a s' => if Ascii.is_space a then demo_lstrip s' else s
  end.

Fixpoint demo_rstrip (s : string) : string :=
  match s with
  | EmptyString => EmptyString
  | String a s' =>
      match demo_rstrip s' with
      | EmptyString => if Ascii.is_space a then EmptyString else String a EmptyString
      | rest => String a rest
      end
  end.

Definition demo_strip (s : string) : string := demo_rstrip (demo_lstrip s).

(** The search request fails. *)
Definition outage_cycle : Cycle :=
  {| search := GhCalledProcessError;
     views := fun _ => full_view;
     device := fun _ _ => true;
     now := 1714568400000000 |}.

(** A search item without the key ['number']. *)
Definition numberless_item : SearchItem :=
  {| i_number := None; i_title := Some "Fix the fetcher";
     i_repository := Some (mkRepository (Some "octo/repo"));
     i_url := Some "https://github.com/octo/repo/pull/7" |}.

Definition numberless_cycle : Cycle :=
  {| search := GhJson [demo_item "octo/repo" 7; numberless_item];
     views := fun _ => full_view;
     device := fun _ _ => true;
     now := 1714568400000000 |}.

(** A comment whose timestamp is not an ISO string. *)
Definition undated_comment : RawComment :=
  demo_comment "IC_5" "hubot" "yesterday" "When was this?".

(** Two pull requests: the first is fully answered, the second holds the
    comment whose timestamp does not parse. *)
Definition aborting_cycle : Cycle :=
  {| search := GhJson [demo_item "octo/repo" 7; demo_item "octo/other" 3];
     views := fun i =>
       match i with
       | O => full_view
       | _ => {| view_comments := GhJson (Some [undated_comment]);
                 view_reviews := GhJson (Some []) |}
       end;
     device := fun _ _ => true;
     now := 1714568400000000 |}.

Definition demo_pr : PR :=
  mkPR 7 "Fix the fetcher" "octo/repo" "https://github.com/octo/repo/pull/7".

(** [--interval 30 --test-mode], the username from the environment. *)
Definition demo_args : Args :=
  {| a_username := None; a_interval := 30; a_test := false; a_test_mode := true |}.

(** [--username octocat --test] *)
Definition test_args : Args :=
  {| a_username := Some "octocat"; a_interval := 60; a_test := true;
     a_test_mode := false |}.


(** A monitor in test mode, with a device, and a cycle in which the one
    pull request holds a comment of the monitored user. *)
Definition test_monitor : Monitor :=
  {| username := "octocat"; poll_interval := 60; test_mode := true;
     processed_events := ∅; last_check := 1714554000000000;
     blink1 := Some (mkBlink1 "2000ABCD") |}.

Definition own_view : View :=
  {| view_comments := GhJson (Some [own_comment]); view_reviews := GhJson None |}.

Definition own_cycle : Cycle :=
  {| search := GhJson [demo_item "octo/repo" 7];
     views := fun _ => own_view;
     device := fun _ _ => true;
     now := 1714568400000000 |}.


(** * Properties *)

Lemma same_config_refl a : same_config a a.
Proof. by repeat split. Qed.

Lemma same_config_trans a b c :
  same_config a b -> same_config b c -> same_config a c.
Proof. unfold same_config. intuition congruence. Qed.

Lemma keys_of_app l1 l2 : keys_of (l1 ++ l2) = keys_of l1 ++ keys_of l2.
Proof. unfold keys_of. apply fmap_app. Qed.

Lemma grows_refl a : grows a a [].
Proof.
  repeat split; simpl; try done.
  - set_solver.
  - constructor.
  - intros k Hk. inversion Hk.
Qed.

Lemma grows_trans a b c n1 n2 :
  grows a b n1 -> grows b c n2 -> grows a c (n1 ++ n2).
Proof.
  intros (Hb & Hd1 & Hf1 & Ht1 & Hc1) (Hc & Hd2 & Hf2 & Ht2 & Hc2).
  unfold grows. rewrite keys_of_app. split_and!.
  - rewrite Hc, Hb, list_to_set_app_L. set_solver.
  - apply NoDup_app. split_and!; [done| |done].
    intros k Hk1 Hk2. apply (Hf2 k Hk2). rewrite Hb. set_solver.
  - intros k Hk. apply elem_of_app in Hk as [Hk|Hk]; [by apply Hf1|].
    intros Hin. apply (Hf2 k Hk). rewrite Hb. set_solver.
  - congruence.
  - by eapply same_config_trans.
Qed.

Lemma grows_subseteq a b new : grows a b new -> processed_events a ⊆ processed_events b.
Proof. intros (Hb & _). rewrite Hb. set_solver. Qed.

Lemma grows_recorded a b new k :
  grows a b new -> k ∈ keys_of new -> k ∈ processed_events b.
Proof. intros (Hb & _) Hk. rewrite Hb. set_solver. Qed.

Lemma extends_refl fr : extends fr fr [].
Proof. split; [by rewrite app_nil_r | apply grows_refl]. Qed.

Lemma extends_trans f1 f2 f3 n1 n2 :
  extends f1 f2 n1 -> extends f2 f3 n2 -> extends f1 f3 (n1 ++ n2).
Proof.
  intros [E1 G1] [E2 G2]. split; [|by eapply grows_trans].
  by rewrite E2, E1, app_assoc.
Qed.

Lemma extends_push te fr :
  event_key te.1 ∉ processed_events (self fr) -> extends fr (push te fr) [te].
Proof.
  intros Hfresh. split; [done|]. unfold grows, keys_of; simpl. split_and!.
  - set_solver.
  - apply NoDup_singleton.
  - intros k Hk. apply list_elem_of_singleton in Hk. by subst.
  - done.
  - by repeat split.
Qed.

Local Arguments recognized_state : simpl never.
Local Arguments review_event_type : simpl never.
Local Arguments excerpt : simpl never.

Ltac run_monad :=
  unfold bind, subscript, parse_datetime, author_filter, author_login,
    subscript, ret, raise, get, append_event, record_processed, modify in *;
  simpl in *.

Ltac no_event :=
  left; split; [done|];
  let Hev := fresh "Hev" in
  intros ? Hev; unfold comment_event, review_event in Hev;
  repeat match type of Hev with
         | ex _ => destruct Hev as [? Hev]
         | _ /\ _ => destruct Hev as [? Hev]
         end;
  first [ by simplify_eq/=
        | simplify_eq/=; solve [done | congruence | lia | naive_solver] ].

Lemma comment_body_cases repo n c fr :
  (final (comment_body repo n c fr) = fr /\
   forall te, ~ comment_event repo n c (self fr) te) \/
  (exists te, comment_event repo n c (self fr) te /\
              comment_body repo n c fr = Ret tt (push te fr)).
Proof.
  unfold comment_body. run_monad.
  destruct c as [cid cau [ca|] cb]; simpl; [|no_event].
  destruct (fromisoformat (replace_Z ca)) as [t|] eqn:Ht; simpl; [|no_event].
  destruct (Z.ltb_spec (last_check (self fr)) t); simpl;
    [|destruct (test_mode (self fr)), cau as [[[?|]]|]; simpl; no_event].
  destruct cau as [[[who|]]|]; simpl;
    [|destruct (test_mode (self fr)), cid; simpl; try case_bool_decide; no_event..].
  assert (Hkeep : (if test_mode (self fr) then true
                   else negb (who =? username (self fr))%string) = false
                  \/ (test_mode (self fr) = false -> who <> username (self fr))).
  { destruct (test_mode (self fr)); [by right|].
    destruct (String.eqb_spec who (username (self fr))); [by left|by right]. }
  destruct Hkeep as [Hno|Hyes].
  { destruct (test_mode (self fr)) eqn:Htm; [done|]. simpl. rewrite Hno. simpl.
    apply negb_false_iff, String.eqb_eq in Hno. no_event. }
  assert (Hk : (if test_mode (self fr) then true
                else negb (who =? username (self fr))%string) = true).
  { destruct (test_mode (self fr)); [done|].
    apply negb_true_iff, String.eqb_neq. by apply Hyes. }
  destruct (test_mode (self fr)) eqn:Htm; simpl; rewrite ?Hk; simpl.
  all: destruct cid as [raw|]; simpl; [|no_event].
  all: case_bool_decide; simpl; [|no_event].
  all: destruct cb as [b|]; simpl; [|no_event].
  all: right;
    exists (mkIdentity FromComment repo n raw,
            mkPREvent n "comment" who ca (Some (excerpt b)));
    split; [|reflexivity].
  all: exists raw, ca, t, who, b; by rewrite ?Htm.
Qed.

Lemma review_body_cases repo n r fr :
  (final (review_body repo n r fr) = fr /\
   forall te, ~ review_event repo n r (self fr) te) \/
  (exists te, review_event repo n r (self fr) te /\
              review_body repo n r fr = Ret tt (push te fr)).
Proof.
  unfold review_body. run_monad.
  destruct r as [rid rau rsa [st|] rb]; simpl; [|no_event].
  destruct (recognized_state st) eqn:Hst; simpl; [|no_event].
  destruct rsa as [sa|]; simpl; [|no_event].
  destruct (fromisoformat (replace_Z sa)) as [t|] eqn:Ht; simpl; [|no_event].
  destruct (Z.ltb_spec (last_check (self fr)) t); simpl;
    [|destruct (test_mode (self fr)), rau as [[[?|]]|]; simpl; no_event].
  destruct rau as [[[who|]]|]; simpl;
    [|destruct (test_mode (self fr)), rid; simpl; try case_bool_decide; no_event..].
  assert (Hkeep : (if test_mode (self fr) then true
                   else negb (who =? username (self fr))%string) = false
                  \/ (test_mode (self fr) = false -> who <> username (self fr))).
  { destruct (test_mode (self fr)); [by right|].
    destruct (String.eqb_spec who (username (self fr))); [by left|by right]. }
  destruct Hkeep as [Hno|Hyes].
  { destruct (test_mode (self fr)) eqn:Htm; [done|]. simpl. rewrite Hno. simpl.
    apply negb_false_iff, String.eqb_eq in Hno. no_event. }
  assert (Hk : (if test_mode (self fr) then true
                else negb (who =? username (self fr))%string) = true).
  { destruct (test_mode (self fr)); [done|].
    apply negb_true_iff, String.eqb_neq. by apply Hyes. }
  destruct (test_mode (self fr)) eqn:Htm; simpl; rewrite ?Hk; simpl.
  all: destruct rid as [raw|]; simpl; [|no_event].
  all: case_bool_decide; simpl; [|no_event].
  all: right;
    exists (mkIdentity FromReview repo n raw,
            mkPREvent n (review_event_type st) who sa (Some (default "" rb)));
    split; [|reflexivity].
  all: exists st, raw, sa, t, who; by rewrite ?Htm.
Qed.

Lemma push_neq te fr : push te fr <> fr.
Proof.
  intros Heq. apply (f_equal (fun f => length (events f))) in Heq.
  simpl in Heq. rewrite length_app in Heq. simpl in Heq. lia.
Qed.

Lemma recognized_state_cases st :
  recognized_state st = true ->
  st = "APPROVED" \/ st = "CHANGES_REQUESTED" \/ st = "COMMENTED".
Proof.
  unfold recognized_state. intros H%bool_decide_eq_true.
  set_solver.
Qed.

Lemma review_event_type_cases st :
  recognized_state st = true ->
  (st = "APPROVED" /\ review_event_type st = "approved") \/
  (st = "CHANGES_REQUESTED" /\ review_event_type st = "changes_requested") \/
  (st = "COMMENTED" /\ review_event_type st = "commented").
Proof.
  intros [->|[->| ->]]%recognized_state_cases; auto.
Qed.

Lemma comment_event_admissible repo n c me te :
  comment_event repo n c me te ->
  admissible me te /\ from_subject repo n te /\
  event_key te.1 ∉ processed_events me.
Proof.
  intros (raw & ca & t & who & b & ? & ? & ? & ? & ? & ? & ? & ? & ->).
  unfold admissible, from_subject; simpl. naive_solver.
Qed.

Lemma review_event_admissible repo n r me te :
  review_event repo n r me te ->
  admissible me te /\ from_subject repo n te /\
  event_key te.1 ∉ processed_events me.
Proof.
  intros (st & raw & sa & t & who & ? & Hst & ? & ? & ? & ? & ? & ? & ? & ->).
  unfold admissible, from_subject; simpl. split_and!; eauto.
  apply review_event_type_cases in Hst as [[_ ->]|[[_ ->]|[_ ->]]]; set_solver.
Qed.

Lemma fetched_refl repo n fr : fetched repo n fr fr [].
Proof. split; [apply extends_refl|]. split; constructor. Qed.

Lemma admissible_config a b te :
  last_check b = last_check a -> same_config a b ->
  admissible b te -> admissible a te.
Proof.
  intros Ht (Hu & _ & Hm & _) (Hnew & Hauth & Hty).
  unfold admissible. rewrite <- Ht, Hu, Hm. done.
Qed.

Lemma fetched_trans repo n f1 f2 f3 n1 n2 :
  fetched repo n f1 f2 n1 -> fetched repo n f2 f3 n2 ->
  fetched repo n f1 f3 (n1 ++ n2).
Proof.
  intros (E1 & A1 & S1) (E2 & A2 & S2). split_and!.
  - by eapply extends_trans.
  - apply Forall_app. split; [done|].
    destruct E1 as (_ & _ & _ & _ & Ht & Hc).
    eapply Forall_impl; [exact A2|]. intros te. by apply admissible_config.
  - apply Forall_app. by split.
Qed.

Lemma comment_body_fetched repo n c fr :
  exists new, fetched repo n fr (final (comment_body repo n c fr)) new.
Proof.
  destruct (comment_body_cases repo n c fr) as [[-> _]|(te & Hev & ->)].
  - exists []. apply fetched_refl.
  - exists [te]. apply comment_event_admissible in Hev as (? & ? & ?).
    split_and!; [by apply extends_push|by constructor..].
Qed.

Lemma review_body_fetched repo n r fr :
  exists new, fetched repo n fr (final (review_body repo n r fr)) new.
Proof.
  destruct (review_body_cases repo n r fr) as [[-> _]|(te & Hev & ->)].
  - exists []. apply fetched_refl.
  - exists [te]. apply review_event_admissible in Hev as (? & ? & ?).
    split_and!; [by apply extends_push|by constructor..].
Qed.

Lemma for_each_fetched {X} repo n (body : X -> M Frame unit) :
  (forall x fr, exists new, fetched repo n fr (final (body x fr)) new) ->
  forall l fr, exists new, fetched repo n fr (final (for_each l body fr)) new.
Proof.
  intros Hbody l. induction l as [|x l IH]; intros fr; simpl.
  - exists []. apply fetched_refl.
  - destruct (Hbody x fr) as [n1 H1]. unfold bind.
    destruct (body x fr) as [[] fr1|e fr1]; simpl in *.
    + destruct (IH fr1) as [n2 H2]. exists (n1 ++ n2). by eapply fetched_trans.
    + by exists n1.
Qed.

Lemma get_pr_comments_try_fetched repo n v fr :
  exists new, fetched repo n fr (final (get_pr_comments_try repo n v fr)) new.
Proof.
  unfold get_pr_comments_try, bind, run_gh, ret, raise.
  destruct v as [[| |cs] rv]; simpl; try (exists []; apply fetched_refl).
  assert (exists n1 r1, fetched repo n fr (final r1) n1 /\
     r1 = match cs with
          | Some comments => for_each comments (comment_body repo n)
          | None => fun s => Ret () s
          end fr) as (n1 & r1 & H1 & <-).
  { destruct cs as [cs|].
    - destruct (for_each_fetched repo n _ (comment_body_fetched repo n) cs fr)
        as [n1 H1]. by exists n1, (for_each cs (comment_body repo n) fr).
    - exists [], (Ret tt fr). split; [apply fetched_refl|done]. }
  destruct r1 as [[] fr1|e fr1]; simpl in *; [|by exists n1].
  destruct rv as [| |[rs|]]; simpl; try by exists n1.
  destruct (for_each_fetched repo n _ (review_body_fetched repo n) rs fr1)
    as [n2 H2].
  exists (n1 ++ n2). by eapply fetched_trans.
Qed.

(** ** One call of [get_pr_comments], one cycle, a run *)

Lemma get_pr_comments_spec repo n v me :
  exists new,
    grows me (final (get_pr_comments repo n v me)) new /\
    Forall (admissible me) new /\ Forall (from_subject repo n) new /\
    (forall evs me', get_pr_comments repo n v me = Ret evs me' -> evs = new).
Proof.
  destruct (get_pr_comments_try_fetched repo n v {| self := me; events := [] |})
    as (new & [Hev Hg] & Ha & Hs). simpl in *.
  exists new. unfold get_pr_comments.
  destruct (get_pr_comments_try _ _ _ _) as [[] fr|e fr]; simpl in *.
  - split_and!; try done. intros ?? [= <- _]. done.
  - destruct (caught e); simpl; split_and!; try done.
    intros ?? [= <- _]. done.
Qed.

Lemma fetch_all_spec vs prs : forall i acc me,
  exists new,
    grows me (final (fetch_all i prs vs acc me)) new /\
    Forall (admissible me) new /\
    (forall evs me', fetch_all i prs vs acc me = Ret evs me' -> evs = acc ++ new).
Proof.
  induction prs as [|pr prs IH]; intros i acc me; simpl.
  - exists []. split_and!; [apply grows_refl|constructor|].
    intros ?? [= <- _]. by rewrite app_nil_r.
  - unfold bind.
    destruct (get_pr_comments_spec (repository pr) (number pr) (vs i) me)
      as (n1 & Hg1 & Ha1 & _ & He1).
    destruct (get_pr_comments _ _ _ me) as [evs me1|e me1]; simpl in *.
    + rewrite (He1 _ _ eq_refl).
      destruct (IH (S i) (acc ++ n1) me1) as (n2 & Hg2 & Ha2 & He2).
      exists (n1 ++ n2). split_and!.
      * by eapply grows_trans.
      * apply Forall_app. split; [done|].
        destruct Hg1 as (_ & _ & _ & Ht & Hc).
        eapply Forall_impl; [exact Ha2|]. intros te. by apply admissible_config.
      * intros evs' me' Hr. rewrite (He2 _ _ Hr). by rewrite app_assoc.
    + exists n1. split_and!; try done.
Qed.

Lemma build_prs_final {S} data (s : S) : final (build_prs data s) = s.
Proof.
  induction data as [|[[n|] [t|] [[[r|]]|] [u|]] data IH]; simpl; try done.
  unfold pr_of_item. run_monad. by destruct (build_prs data s).
Qed.

Lemma get_user_prs_final {S} out (s : S) : final (get_user_prs out s) = s.
Proof. destruct out; simpl; try done. apply build_prs_final. Qed.

Lemma collect_spec c me :
  exists new,
    grows me (final (collect c me)) new /\
    Forall (admissible me) new /\
    (forall evs me', collect c me = Ret evs me' -> evs = new).
Proof.
  unfold collect, bind.
  pose proof (get_user_prs_final (search c) me) as Hf.
  destruct (get_user_prs (search c) me) as [prs me0|e me0]; simpl in Hf; subst.
  - destruct (fetch_all_spec (views c) prs 0 [] me) as (new & ? & ? & He).
    exists new. split_and!; try done.
  - exists []. split_and!; [apply grows_refl|constructor|done].
Qed.

Lemma check_for_updates_spec c me :
  match check_for_updates c me with
  | Ret notes me' =>
      exists new me1,
        collect c me = Ret new me1 /\ grows me me1 new /\
        Forall (admissible me) new /\
        me' = set_last_check (now c) me1 /\
        notes = emit me1 (device c) new
  | Raise e me' =>
      exists new, collect c me = Raise e me' /\ grows me me' new
  end.
Proof.
  destruct (collect_spec c me) as (new & Hg & Ha & He).
  unfold check_for_updates, bind, get, modify, ret.
  destruct (collect c me) as [evs me1|e me1]; simpl in *.
  - rewrite (He _ _ eq_refl). by exists new, me1.
  - by exists new.
Qed.

Lemma emit_tags me devs new : n_tag <$> emit me devs new = new.*1.
Proof. unfold emit. rewrite fmap_imap. simpl. apply imap_const. Qed.

Lemma emit_events me devs new : n_event <$> emit me devs new = new.*2.
Proof. unfold emit. rewrite fmap_imap. simpl. apply imap_const. Qed.

Lemma keys_of_tags (l : list TaggedEvent) : keys_of l = event_key <$> l.*1.
Proof. unfold keys_of. by rewrite <- list_fmap_compose. Qed.

Lemma run_cons c cycles me :
  run (c :: cycles) me =
  match check_for_updates c me with
  | Ret notes me' => ((run cycles me').1, notes ++ (run cycles me').2)
  | Raise _ me' => run cycles me'
  end.
Proof.
  simpl. destruct (check_for_updates c me); [|done]. by destruct (run cycles s).
Qed.

(** Over a run, the ids of the notified events are pairwise distinct, were
    unknown when the run began and are known when it ends; the ledger only
    grows. *)
Lemma run_ledger cycles : forall me,
  NoDup (event_key <$> (n_tag <$> (run cycles me).2)) /\
  processed_events me ⊆ processed_events (run cycles me).1 /\
  (forall k, k ∈ event_key <$> (n_tag <$> (run cycles me).2) ->
     k ∈ processed_events (run cycles me).1 /\ k ∉ processed_events me).
Proof.
  induction cycles as [|c cycles IH]; intros me.
  - simpl. split_and!; [constructor|done|]. intros k Hk. inversion Hk.
  - rewrite run_cons. pose proof (check_for_updates_spec c me) as Hc.
    destruct (check_for_updates c me) as [notes me1|e me1].
    + destruct Hc as (new & me0 & _ & Hg & _ & -> & ->).
      destruct (IH (set_last_check (now c) me0)) as (Hd & Hsub & Hk).
      simpl in *. rewrite !fmap_app, emit_tags, <- keys_of_tags.
      pose proof (grows_subseteq _ _ _ Hg) as Hsub0.
      destruct Hg as (Hl & Hnd & Hfresh & _).
      split_and!.
      * apply NoDup_app. split_and!; [done| |done].
        intros k Hk1 Hk2. apply Hk in Hk2 as [_ Hk2]. apply Hk2.
        rewrite Hl. set_solver.
      * set_solver.
      * intros k [Hin|Hin]%elem_of_app.
        -- split; [|by apply Hfresh]. apply Hsub. rewrite Hl. set_solver.
        -- apply Hk in Hin as [? ?]. split; [done|]. set_solver.
    + destruct Hc as (new & _ & Hg).
      destruct (IH me1) as (Hd & Hsub & Hk).
      pose proof (grows_subseteq _ _ _ Hg) as Hsub0.
      split_and!; [done|set_solver|].
      intros k Hin. apply Hk in Hin as [? ?]. split; [done|]. set_solver.
Qed.

(** C1. At-most-once: over any run of poll cycles, started in any state, no
    event identity is notified twice; the processed-events ledger never
    loses an id; an id known when the run starts is not notified in it and
    every notified id is in the ledger; within a cycle the ids of all new
    events are in the ledger before the first flash; and a raw record whose
    id is in the ledger appends no event and changes nothing. *)
Theorem at_most_once cycles me :
  NoDup (n_tag <$> (run cycles me).2) /\
  processed_events me ⊆ processed_events (run cycles me).1 /\
  (forall note, note ∈ (run cycles me).2 ->
     event_key (n_tag note) ∈ processed_events (run cycles me).1 /\
     event_key (n_tag note) ∉ processed_events me) /\
  (forall c notes me',
     check_for_updates c me = Ret notes me' ->
     exists new me1,
       collect c me = Ret new me1 /\ notes = emit me1 (device c) new /\
       processed_events me' = processed_events me1 /\
       forall te, te ∈ new -> event_key te.1 ∈ processed_events me1) /\
  (forall repo n fr c raw,
     c_id c = Some raw ->
     comment_event_id repo n raw ∈ processed_events (self fr) ->
     final (comment_body repo n c fr) = fr) /\
  (forall repo n fr r raw,
     r_id r = Some raw ->
     review_event_id repo n raw ∈ processed_events (self fr) ->
     final (review_body repo n r fr) = fr).
Proof.
  destruct (run_ledger cycles me) as (Hd & Hsub & Hk). split_and!.
  - by apply NoDup_fmap_1 in Hd.
  - done.
  - intros note Hin. apply Hk. by do 2 apply list_elem_of_fmap_2.
  - intros c notes me' Hr. pose proof (check_for_updates_spec c me) as Hc.
    rewrite Hr in Hc. destruct Hc as (new & me1 & Hcol & Hg & _ & -> & ->).
    exists new, me1. split_and!; try done.
    intros te Hte. eapply grows_recorded; [exact Hg|].
    unfold keys_of. by apply (list_elem_of_fmap_2 (fun te => event_key te.1)).
  - intros repo n fr c raw Hid Hin.
    destruct (comment_body_cases repo n c fr) as [[? _]|(te & Hev & _)]; [done|].
    destruct Hev as (raw' & ? & ? & ? & ? & Hid' & ? & ? & ? & ? & ? & ? & Hfresh & _).
    by simplify_eq.
  - intros repo n fr r raw Hid Hin.
    destruct (review_body_cases repo n r fr) as [[? _]|(te & Hev & _)]; [done|].
    destruct Hev as (? & raw' & ? & ? & ? & ? & ? & Hid' & ? & ? & ? & ? & ? & Hfresh & _).
    by simplify_eq.
Qed.

(** C2. Cutoff: every event notified in a cycle has a timestamp strictly
    after the value [last_check] had when the cycle began; fetching leaves
    [last_check] alone, the flashes are computed in that unchanged state,
    and only then is [last_check] set to the current time.  A cycle that an
    exception aborts leaves [last_check] as it was. *)
Theorem cutoff_correctness c me :
  last_check (final (collect c me)) = last_check me /\
  match check_for_updates c me with
  | Ret notes me' =>
      Forall (fun note =>
                exists t,
                  fromisoformat (replace_Z (created_at (n_event note))) = Some t /\
                  (last_check me < t)%Z) notes /\
      (exists new me1,
         collect c me = Ret new me1 /\ notes = emit me1 (device c) new /\
         last_check me1 = last_check me /\
         me' = set_last_check (now c) me1) /\
      last_check me' = now c
  | Raise _ me' => last_check me' = last_check me
  end.
Proof.
  split.
  - destruct (collect_spec c me) as (new & Hg & _). by destruct Hg as (_&_&_&?&_).
  - pose proof (check_for_updates_spec c me) as Hc.
    destruct (check_for_updates c me) as [notes me'|e me'].
    + destruct Hc as (new & me1 & Hcol & Hg & Ha & -> & ->). split_and!.
      * apply Forall_fmap with (f := n_event) (P := fun ev => exists t,
          fromisoformat (replace_Z (created_at ev)) = Some t /\ (last_check me < t)%Z).
        rewrite emit_events. apply Forall_fmap.
        eapply Forall_impl; [exact Ha|]. by intros te [? _].
      * exists new, me1. by destruct Hg as (_&_&_&?&_).
      * done.
    + destruct Hc as (new & _ & Hg). by destruct Hg as (_&_&_&?&_).
Qed.

Lemma for_each_app {S X} (l1 l2 : list X) (body : X -> M S unit) s :
  for_each (l1 ++ l2) body s =
  match for_each l1 body s with
  | Ret _ s' => for_each l2 body s'
  | Raise e s' => Raise e s'
  end.
Proof.
  revert s. induction l1 as [|x l1 IH]; intros s; simpl; [done|].
  unfold bind. destruct (body x s); [apply IH|done].
Qed.

Lemma comment_body_raise repo n c fr e fr' :
  comment_body repo n c fr = Raise e fr' -> fr' = fr.
Proof.
  intros Hr. destruct (comment_body_cases repo n c fr) as [[Hf _]|(te & _ & Hp)].
  - by rewrite Hr in Hf.
  - congruence.
Qed.

Lemma review_body_raise repo n r fr e fr' :
  review_body repo n r fr = Raise e fr' -> fr' = fr.
Proof.
  intros Hr. destruct (review_body_cases repo n r fr) as [[Hf _]|(te & _ & Hp)].
  - by rewrite Hr in Hf.
  - congruence.
Qed.

(** C3, as the code has it.  When the first request (the comments) fails,
    the pull request gives no event and the monitor is unchanged.  When a
    later step fails, by an exception the [except] clause catches, the call
    still returns: it returns the events appended before the failure, and
    the ledger has gained exactly their ids.  In particular a failing
    reviews request keeps what the comments gave. *)
Theorem fetch_failure_keeps_prefix repo n v me :
  (view_comments v = GhCalledProcessError \/ view_comments v = GhJSONDecodeError ->
   get_pr_comments repo n v me = Ret [] me) /\
  (forall e fr,
     get_pr_comments_try repo n v {| self := me; events := [] |} = Raise e fr ->
     caught e = true ->
     get_pr_comments repo n v me = Ret (events fr) (self fr) /\
     grows me (self fr) (events fr)) /\
  (view_reviews v = GhCalledProcessError \/ view_reviews v = GhJSONDecodeError ->
   get_pr_comments repo n v me =
   get_pr_comments repo n
     {| view_comments := view_comments v; view_reviews := GhJson None |} me).
Proof.
  split_and!.
  - unfold get_pr_comments, get_pr_comments_try, bind, run_gh, raise.
    by intros [-> | ->].
  - intros e fr Hr Hc.
    destruct (get_pr_comments_try_fetched repo n v {| self := me; events := [] |})
      as (new & [Hev Hg] & _). rewrite Hr in Hev, Hg. simpl in *. subst new.
    split; [|done]. unfold get_pr_comments. by rewrite Hr, Hc.
  - unfold get_pr_comments, get_pr_comments_try, bind, run_gh, raise, ret.
    intros Hrv. destruct (view_comments v) as [| |[cs|]]; simpl; try done.
    + destruct (for_each cs _ _) as [[] fr|e fr]; [|done].
      by destruct Hrv as [-> | ->].
    + by destruct Hrv as [-> | ->].
Qed.

(** C5, as the code has it.  A record whose missing key is looked up raises
    [KeyError], and that ends the whole call: the events of the records
    before it are returned, the record itself and every record after it
    (the other comments and all reviews, or the other reviews) give none.
    A comment without ['createdAt'] and a review without ['state'] always
    raise. *)
Theorem malformed_record_ends_batch repo n me :
  (forall pre bad post rv fr k fr',
     for_each pre (comment_body repo n) {| self := me; events := [] |} = Ret tt fr ->
     comment_body repo n bad fr = Raise (KeyError k) fr' ->
     get_pr_comments repo n
       {| view_comments := GhJson (Some (pre ++ bad :: post)); view_reviews := rv |} me
     = Ret (events fr) (self fr)) /\
  (forall cv pre bad post fr0 fr k fr',
     get_pr_comments_try repo n
       {| view_comments := cv; view_reviews := GhJson None |}
       {| self := me; events := [] |} = Ret tt fr0 ->
     for_each pre (review_body repo n) fr0 = Ret tt fr ->
     review_body repo n bad fr = Raise (KeyError k) fr' ->
     get_pr_comments repo n
       {| view_comments := cv; view_reviews := GhJson (Some (pre ++ bad :: post)) |} me
     = Ret (events fr) (self fr)) /\
  (forall c fr, c_createdAt c = None ->
     comment_body repo n c fr = Raise (KeyError "createdAt") fr) /\
  (forall r fr, r_state r = None ->
     review_body repo n r fr = Raise (KeyError "state") fr).
Proof.
  split_and!.
  - intros pre bad post rv fr k fr' Hpre Hbad.
    pose proof (comment_body_raise _ _ _ _ _ _ Hbad) as ->.
    unfold get_pr_comments, get_pr_comments_try, bind, run_gh, ret. simpl.
    rewrite for_each_app, Hpre. simpl. unfold bind. by rewrite Hbad.
  - intros cv pre bad post fr0 fr k fr' Hcv Hpre Hbad.
    pose proof (review_body_raise _ _ _ _ _ _ Hbad) as ->.
    revert Hcv.
    unfold get_pr_comments, get_pr_comments_try, bind, run_gh, ret, raise. simpl.
    destruct cv as [| |[cs|]]; simpl; try done.
    + destruct (for_each cs _ _) as [[] fr1|e fr1]; [|done].
      intros [= ->]. rewrite for_each_app, Hpre. simpl. unfold bind.
      by rewrite Hbad.
    + intros [= <-]. rewrite for_each_app, Hpre. simpl. unfold bind.
      by rewrite Hbad.
  - intros c fr Hc. unfold comment_body. run_monad. by rewrite Hc.
  - intros r fr Hr. unfold review_body. run_monad. by rewrite Hr.
Qed.

(** ** Which records give an event *)

Lemma comment_event_functional repo n c me te te' :
  comment_event repo n c me te -> comment_event repo n c me te' -> te = te'.
Proof.
  intros (?&?&?&?&?&?&?&?&?&?&?&?&?&->) (?&?&?&?&?&?&?&?&?&?&?&?&?&->).
  by simplify_eq.
Qed.

Lemma review_event_functional repo n r me te te' :
  review_event repo n r me te -> review_event repo n r me te' -> te = te'.
Proof.
  intros (?&?&?&?&?&?&?&?&?&?&?&?&?&?&->) (?&?&?&?&?&?&?&?&?&?&?&?&?&?&->).
  by simplify_eq.
Qed.

Lemma comment_body_appends repo n c fr te :
  comment_body repo n c fr = Ret tt (push te fr) <->
  comment_event repo n c (self fr) te.
Proof.
  destruct (comment_body_cases repo n c fr) as [[Hf Hno]|(te' & Hev & Hp)].
  - split; [|by intros ?%Hno]. intros Hr. rewrite Hr in Hf.
    by apply push_neq in Hf.
  - split.
    + rewrite Hp. intros Hpush.
      apply (f_equal (fun r => events (final r))) in Hpush. simpl in Hpush.
      apply app_inv_head in Hpush. by simplify_eq.
    + intros Hev'. by rewrite (comment_event_functional _ _ _ _ _ _ Hev' Hev).
Qed.

Lemma review_body_appends repo n r fr te :
  review_body repo n r fr = Ret tt (push te fr) <->
  review_event repo n r (self fr) te.
Proof.
  destruct (review_body_cases repo n r fr) as [[Hf Hno]|(te' & Hev & Hp)].
  - split; [|by intros ?%Hno]. intros Hr. rewrite Hr in Hf.
    by apply push_neq in Hf.
  - split.
    + rewrite Hp. intros Hpush.
      apply (f_equal (fun r => events (final r))) in Hpush. simpl in Hpush.
      apply app_inv_head in Hpush. by simplify_eq.
    + intros Hev'. by rewrite (review_event_functional _ _ _ _ _ _ Hev' Hev).
Qed.

(** C10. [test_mode] bypasses the author filter and nothing else.  In either
    mode a record appends an event exactly when it is complete, its
    timestamp is strictly after the watermark, its id is not in the ledger
    and it passes the author filter, which [test_mode] alone switches off;
    a record that does not append an event changes nothing. *)
Theorem test_mode_bypasses_only_author_filter repo n fr :
  (forall c te,
     comment_body repo n c fr = Ret tt (push te fr) <->
     exists raw ca t who b,
       c = mkRawComment (Some raw) (Some (mkAuthor (Some who))) (Some ca) (Some b) /\
       fromisoformat (replace_Z ca) = Some t /\ (last_check (self fr) < t)%Z /\
       (comment_event_id repo n raw ∉ processed_events (self fr)) /\
       (test_mode (self fr) = true \/ who <> username (self fr)) /\
       te = (mkIdentity FromComment repo n raw,
             mkPREvent n "comment" who ca (Some (excerpt b)))) /\
  (forall r te,
     review_body repo n r fr = Ret tt (push te fr) <->
     exists raw sa t who st rb,
       r = mkRawReview (Some raw) (Some (mkAuthor (Some who))) (Some sa) (Some st) rb /\
       recognized_state st = true /\
       fromisoformat (replace_Z sa) = Some t /\ (last_check (self fr) < t)%Z /\
       (review_event_id repo n raw ∉ processed_events (self fr)) /\
       (test_mode (self fr) = true \/ who <> username (self fr)) /\
       te = (mkIdentity FromReview repo n raw,
             mkPREvent n (review_event_type st) who sa (Some (default "" rb)))) /\
  (forall c, (forall te, comment_body repo n c fr <> Ret tt (push te fr)) ->
     final (comment_body repo n c fr) = fr) /\
  (forall r, (forall te, review_body repo n r fr <> Ret tt (push te fr)) ->
     final (review_body repo n r fr) = fr).
Proof.
  split_and!.
  - intros c te. rewrite comment_body_appends. split.
    + intros (raw & ca & t & who & b & ? & ? & ? & ? & ? & Hne & ? & ? & ->).
      exists raw, ca, t, who, b. destruct c; simpl in *; subst.
      split_and!; try done.
      destruct (test_mode (self fr)); [by left|right; by apply Hne].
    + intros (raw & ca & t & who & b & -> & ? & ? & ? & Hor & ->).
      exists raw, ca, t, who, b. simpl. split_and!; try done.
      intros Hm. destruct Hor; congruence.
  - intros r te. rewrite review_body_appends. split.
    + intros (st & raw & sa & t & who & ? & ? & ? & ? & ? & ? & ? & Hne & ? & ->).
      exists raw, sa, t, who, st, (r_body r). destruct r; simpl in *; subst.
      split_and!; try done.
      destruct (test_mode (self fr)); [by left|right; by apply Hne].
    + intros (raw & sa & t & who & st & rb & -> & ? & ? & ? & ? & Hor & ->).
      exists st, raw, sa, t, who. simpl. split_and!; try done.
      intros Hm. destruct Hor; congruence.
  - intros c Hno.
    destruct (comment_body_cases repo n c fr) as [[? _]|(te & _ & Hp)]; [done|].
    by destruct (Hno te).
  - intros r Hno.
    destruct (review_body_cases repo n r fr) as [[? _]|(te & _ & Hp)]; [done|].
    by destruct (Hno te).
Qed.

(** ** Reviews in other states *)

Lemma review_body_unrecognized repo n r st fr :
  r_state r = Some st -> recognized_state st = false ->
  review_body repo n r fr = Ret tt fr.
Proof. intros Hr Hst. unfold review_body. run_monad. by rewrite Hr, Hst. Qed.

Lemma for_each_review_filter repo n rs : forall fr,
  for_each (List.filter keep_review rs) (review_body repo n) fr =
  for_each rs (review_body repo n) fr.
Proof.
  induction rs as [|r rs IH]; intros fr; [done|]. simpl.
  unfold keep_review at 1. destruct (r_state r) as [st|] eqn:Hr.
  - destruct (recognized_state st) eqn:Hst; simpl; unfold bind.
    + destruct (review_body repo n r fr); [apply IH|done].
    + rewrite (review_body_unrecognized _ _ _ _ _ Hr Hst). apply IH.
  - simpl. unfold bind. destruct (review_body repo n r fr); [apply IH|done].
Qed.

Lemma get_pr_comments_drop repo n v me :
  get_pr_comments repo n (drop_unrecognized_reviews v) me =
  get_pr_comments repo n v me.
Proof.
  unfold get_pr_comments, get_pr_comments_try, bind. simpl.
  destruct (run_gh (view_comments v) _) as [[cs|] fr|]; [| |done].
  - destruct (for_each cs _ fr) as [[] fr1|]; [|done].
    destruct (view_reviews v) as [| |[rs|]]; simpl; try done.
    by rewrite for_each_review_filter.
  - unfold ret. destruct (view_reviews v) as [| |[rs|]]; simpl; try done.
    by rewrite for_each_review_filter.
Qed.

Lemma fetch_all_ext vs vs' prs :
  (forall i repo n me,
     get_pr_comments repo n (vs i) me = get_pr_comments repo n (vs' i) me) ->
  forall i acc me, fetch_all i prs vs acc me = fetch_all i prs vs' acc me.
Proof.
  intros Hv. induction prs as [|pr prs IH]; intros i acc me; [done|].
  simpl. unfold bind. rewrite Hv.
  destruct (get_pr_comments _ _ _ me); [apply IH|done].
Qed.

(** C8. Review-state gating, in either mode.  A review whose state is not
    APPROVED, CHANGES_REQUESTED or COMMENTED appends no event and changes
    nothing, and a cycle runs exactly as if such reviews were not in the
    answers of [gh]: they are never notified.  A review that appends an
    event has one of the three states and its event has the matching type;
    a complete, new, unrecorded review in such a state that passes the
    author filter does append that event. *)
Theorem review_state_gating repo n fr r st :
  r_state r = Some st ->
  (st ∉ ["APPROVED"; "CHANGES_REQUESTED"; "COMMENTED"] ->
   review_body repo n r fr = Ret tt fr) /\
  (forall te,
     review_body repo n r fr = Ret tt (push te fr) ->
     (st = "APPROVED" /\ event_type te.2 = "approved") \/
     (st = "CHANGES_REQUESTED" /\ event_type te.2 = "changes_requested") \/
     (st = "COMMENTED" /\ event_type te.2 = "commented")) /\
  (forall raw who sa t,
     r = mkRawReview (Some raw) (Some (mkAuthor (Some who))) (Some sa) (Some st)
           (r_body r) ->
     st ∈ ["APPROVED"; "CHANGES_REQUESTED"; "COMMENTED"] ->
     fromisoformat (replace_Z sa) = Some t -> (last_check (self fr) < t)%Z ->
     (test_mode (self fr) = true \/ who <> username (self fr)) ->
     review_event_id repo n raw ∉ processed_events (self fr) ->
     review_body repo n r fr =
     Ret tt (push (mkIdentity FromReview repo n raw,
                   mkPREvent n (review_event_type st) who sa
                     (Some (default "" (r_body r)))) fr)) /\
  (forall v me,
     get_pr_comments repo n (drop_unrecognized_reviews v) me =
     get_pr_comments repo n v me) /\
  (forall c me,
     check_for_updates (drop_unrecognized c) me = check_for_updates c me).
Proof.
  intros Hr. split_and!.
  - intros Hst. apply (review_body_unrecognized _ _ _ st); [done|].
    unfold recognized_state. by apply bool_decide_eq_false.
  - intros te (st' & ? & ? & ? & ? & Hr' & Hst & _ & _ & _ & _ & _ & _ & _ & ->)
      %review_body_appends.
    simpl. rewrite Hr in Hr'. injection Hr' as <-.
    by apply review_event_type_cases.
  - intros raw who sa t Heq Hst Ht Hlt Hor Hfresh. apply review_body_appends.
    exists st, raw, sa, t, who. rewrite Heq. simpl. split_and!; try done.
    + unfold recognized_state. by apply bool_decide_eq_true.
    + intros Hm. destruct Hor; congruence.
  - intros v me. apply get_pr_comments_drop.
  - intros c me. unfold check_for_updates, collect, bind. simpl.
    destruct (get_user_prs (search c) me) as [prs me0|]; [|done].
    rewrite (fetch_all_ext (fun i => drop_unrecognized_reviews (views c i))
               (views c)); [done|].
    intros. apply get_pr_comments_drop.
Qed.

(** ** Cycles that run to their end *)






Lemma fetch_all_app vs l1 l2 : forall i acc me,
  fetch_all i (l1 ++ l2) vs acc me =
  match fetch_all i l1 vs acc me with
  | Ret acc' me' => fetch_all (i + length l1) l2 vs acc' me'
  | Raise e me' => Raise e me'
  end.
Proof.
  induction l1 as [|pr l1 IH]; intros i acc me; simpl.
  - unfold ret. by rewrite Nat.add_0_r.
  - unfold bind. destruct (get_pr_comments _ _ _ me); [|done].
    rewrite IH. by replace (S i + length l1) with (i + S (length l1)) by lia.
Qed.

(** ** Construction and the device *)

(** C6, as the code has it.  A blink(1) that cannot be reached when the
    monitor is built is not fatal: construction gives a monitor without a
    device handle, every later flash is skipped, and only a missing or
    unauthenticated [gh] makes construction fail. *)
Theorem device_unavailable_is_not_fatal u p t clock :
  __init__ u p t clock ConnectionFailed AuthOk =
    Ret tt {| username := u; poll_interval := p; test_mode := t;
              processed_events := ∅; last_check := (clock - one_hour)%Z;
              blink1 := None |} /\
  (forall b auth, startup_fails (__init__ u p t clock b auth) <-> auth <> AuthOk) /\
  (forall me ev dev, blink1 me = None -> flash_for_event me ev dev = NoDevice) /\
  (forall me c notes me',
     blink1 me = None -> check_for_updates c me = Ret notes me' ->
     Forall (fun note => n_flash note = NoDevice) notes).
Proof.
  split_and!.
  - done.
  - intros b auth. unfold startup_fails, __init__. destruct auth; simpl.
    + split; [by intros (? & ? & ?)|done].
    + split; [done|]. intros _. by eexists _, _.
    + split; [done|]. intros _. by eexists _, _.
  - intros me ev dev Hb. unfold flash_for_event. by rewrite Hb.
  - intros me c notes me' Hb Hr.
    pose proof (check_for_updates_spec c me) as Hc. rewrite Hr in Hc.
    destruct Hc as (new & me1 & _ & Hg & _ & _ & ->).
    destruct Hg as (_ & _ & _ & _ & _ & _ & _ & Hb1).
    apply Forall_forall. intros note Hin. unfold emit in Hin.
    apply elem_of_lookup_imap in Hin as (k & te & -> & _). simpl.
    unfold flash_for_event. by rewrite <- Hb1, Hb.
Qed.

(** ** Excerpts *)

Lemma length_substring_0 k s :
  (k <= String.length s)%nat -> String.length (substring 0 k s) = k.
Proof.
  revert s. induction k as [|k IH]; intros [|a s] Hk; simpl in *;
    try done; try lia.
  rewrite IH; lia.
Qed.

Lemma substring_0_prefix k s :
  exists rest, s = substring 0 k s +:+ rest.
Proof.
  revert s. induction k as [|k IH]; intros [|a s]; simpl.
  - by exists "".
  - by exists (String a s).
  - by exists "".
  - destruct (IH s) as [rest Hr]. exists rest.
    change (String a s = String a (substring 0 k s +:+ rest)). by f_equal.
Qed.

(** The truncation on the comment path: a body of more than 100 characters
    becomes its first 100 characters and three dots; any other body is
    kept. *)
Lemma excerpt_spec b :
  ((String.length b <= 100)%nat -> excerpt b = b) /\
  ((100 < String.length b)%nat ->
   exists head rest,
     b = head +:+ rest /\ String.length head = 100%nat /\
     excerpt b = head +:+ "...").
Proof.
  unfold excerpt. split; intros Hl.
  - by destruct (Nat.ltb_spec 100 (String.length b)); [lia|].
  - destruct (Nat.ltb_spec 100 (String.length b)); [|lia].
    destruct (substring_0_prefix 100 b) as [rest Hr].
    exists (substring 0 100 b), rest. split_and!; [done| |done].
    apply length_substring_0. lia.
Qed.

(** * Further properties of the code *)

(** ** Discovery: [get_user_prs] *)

Lemma pr_of_item_cases {S} item (s : S) :
  (exists k, pr_of_item item s = Raise (KeyError k) s /\ item_incomplete item) \/
  (exists pr,
     pr_of_item item s = Ret pr s /\
     item = mkSearchItem (Some (number pr)) (Some (title pr))
              (Some (mkRepository (Some (repository pr)))) (Some (url pr))).
Proof.
  unfold pr_of_item, item_incomplete. run_monad.
  destruct item as [[n|] [t|] [[[r|]]|] [u|]]; simpl;
    try (left; eexists; split; [reflexivity|]; tauto).
  right. by exists (mkPR n t r u).
Qed.

(** X2. What [get_user_prs] returns for a search that succeeded: one dict
    per item, in the order of the items, with the number, title, repository
    name and url of its item; the monitor is not touched. *)
Theorem get_user_prs_translates_items (data : list SearchItem) (me : Monitor) prs me' :
  get_user_prs (GhJson data) me = Ret prs me' ->
  me' = me /\
  Forall2 (fun item pr =>
             item = mkSearchItem (Some (number pr)) (Some (title pr))
                      (Some (mkRepository (Some (repository pr)))) (Some (url pr)))
          data prs.
Proof.
  simpl. revert prs. induction data as [|item data IH]; intros prs; simpl.
  - intros [= <- <-]. by split.
  - unfold bind.
    destruct (pr_of_item_cases item me) as [(k & -> & _)|(pr & -> & Hitem)];
      [done|].
    destruct (build_prs data me) as [prs0 me0|] eqn:Hb; [|done].
    unfold ret. intros [= <- <-]. destruct (IH prs0 eq_refl) as [-> Hall].
    split; [done|]. by constructor.
Qed.

Lemma build_prs_incomplete {S} data (s : S) :
  Exists item_incomplete data ->
  exists k, build_prs data s = Raise (KeyError k) s.
Proof.
  induction 1 as [item data Hbad|item data Hex IH]; simpl; unfold bind.
  - destruct (pr_of_item_cases item s) as [(k & -> & _)|(pr & _ & ->)];
      [by eauto|].
    exfalso. unfold item_incomplete in Hbad. simpl in Hbad.
    naive_solver.
  - destruct (pr_of_item_cases item s) as [(k & -> & _)|(pr & -> & _)];
      [by eauto|].
    destruct IH as [k ->]. by eauto.
Qed.

(** X3. A search item that lacks a key: the [KeyError] is raised outside the
    [try] of [get_user_prs], so it leaves [check_for_updates] before any
    pull request is fetched.  The monitor is exactly as before (nothing
    recorded, watermark not moved), nothing is flashed, and [run] goes on
    with the next cycle. *)
Theorem incomplete_search_item_aborts_cycle c data me cycles :
  search c = GhJson data ->
  Exists item_incomplete data ->
  exists k,
    get_user_prs (search c) me = Raise (KeyError k) me /\
    check_for_updates c me = Raise (KeyError k) me /\
    run (c :: cycles) me = run cycles me.
Proof.
  intros Hs Hex. destruct (build_prs_incomplete data me Hex) as [k Hk].
  exists k. rewrite Hs. simpl.
  assert (Hc : check_for_updates c me = Raise (KeyError k) me).
  { unfold check_for_updates, collect, bind. rewrite Hs. simpl. by rewrite Hk. }
  split_and!; [done|done|]. by rewrite Hc.
Qed.

(** X1. A search that fails (non-zero exit or unparsable output) is caught:
    the cycle looks at no pull request, flashes nothing, records nothing,
    and still sets the watermark to the current time.  A comment whose
    timestamp is not after that time is therefore never turned into an
    event by the monitor the cycle leaves. *)
Theorem failed_search_skips_the_cycle c me :
  search c = GhCalledProcessError \/ search c = GhJSONDecodeError ->
  check_for_updates c me = Ret [] (set_last_check (now c) me) /\
  (forall repo n comment ca t evs,
     c_createdAt comment = Some ca ->
     fromisoformat (replace_Z ca) = Some t -> (t <= now c)%Z ->
     final (comment_body repo n comment
              {| self := set_last_check (now c) me; events := evs |})
     = {| self := set_last_check (now c) me; events := evs |}).
Proof.
  intros Hs. split.
  - unfold check_for_updates, collect, bind. by destruct Hs as [-> | ->].
  - intros repo n comment ca t evs Hca Ht Hle.
    destruct (comment_body_cases repo n comment
                {| self := set_last_check (now c) me; events := evs |})
      as [[? _]|(te & Hev & _)]; [done|].
    destruct Hev as (?&ca'&t'&?&?&?&Hca'&Ht'&Hlt&_). simpl in *.
    simplify_eq. lia.
Qed.

(** ** Flashes: [flash_for_event] *)

Lemma pattern_for_table ty :
  ty ∈ ["comment"; "approved"; "changes_requested"; "commented"] ->
  exists p, pattern_for ty = Some p /\ pattern_table ty p.
Proof.
  unfold pattern_table. intros Hty.
  repeat (apply elem_of_cons in Hty as [->|Hty]);
    [eexists; split; [reflexivity|]; tauto..|].
  inversion Hty.
Qed.

Lemma admissible_type me te :
  admissible me te ->
  event_type te.2 ∈ ["comment"; "approved"; "changes_requested"; "commented"].
Proof.
  intros (_ & _ & Hty). destruct (origin te.1); [rewrite Hty|]; set_solver.
Qed.

(** X4. With a device attached, every event a cycle notifies is flashed with
    the pattern of its type: blue for a comment, green for an approval, red
    for a change request, yellow for a review comment.  The pattern is
    played, or its failure is caught; no event is left without a pattern,
    and different types never share one. *)
Theorem notified_events_have_patterns c me d notes me' :
  blink1 me = Some d ->
  check_for_updates c me = Ret notes me' ->
  Forall (fun note =>
            exists p,
              pattern_table (event_type (n_event note)) p /\
              (n_flash note = Played p \/ n_flash note = PlayFailed p))
         notes /\
  (forall ty1 ty2 p, pattern_table ty1 p -> pattern_table ty2 p -> ty1 = ty2).
Proof.
  intros Hd Hr. split.
  - pose proof (check_for_updates_spec c me) as Hc. rewrite Hr in Hc.
    destruct Hc as (new & me1 & _ & Hg & Ha & _ & ->).
    destruct Hg as (_ & _ & _ & _ & _ & _ & _ & Hb).
    apply Forall_forall. intros note Hin. unfold emit in Hin.
    apply elem_of_lookup_imap in Hin as (k & te & -> & Hk). simpl.
    assert (admissible me te) as Hte.
    { eapply Forall_forall; [exact Ha|]. by eapply list_elem_of_lookup_2. }
    destruct (pattern_for_table _ (admissible_type _ _ Hte)) as (p & Hp & Ht).
    exists p. split; [done|]. unfold flash_for_event.
    rewrite <- Hb, Hd, Hp. destruct (device c k p); auto.
  - unfold pattern_table. intros ty1 ty2 p H1 H2.
    destruct H1 as [[-> ->]|[[-> ->]|[[-> ->]| [-> ->]]]];
      destruct H2 as [[-> ?]|[[-> ?]|[[-> ?]| [-> ?]]]]; done.
Qed.

(** X5. What the device does has no effect on the monitor: a cycle run
    with another device ends in the same way, in the same monitor state,
    and notifies the same events in the same order; only the outcomes
    of the flashes can differ. *)
Theorem device_does_not_affect_state c devs me :
  match check_for_updates c me, check_for_updates (with_device devs c) me with
  | Ret notes1 me1, Ret notes2 me2 =>
      me1 = me2 /\
      n_tag <$> notes1 = n_tag <$> notes2 /\
      n_event <$> notes1 = n_event <$> notes2
  | Raise e1 me1, Raise e2 me2 => e1 = e2 /\ me1 = me2
  | _, _ => False
  end.
Proof.
  unfold check_for_updates, bind, get, modify, ret.
  change (collect (with_device devs c) me) with (collect c me).
  destruct (collect c me) as [new me1|e me1]; simpl; [|done].
  by rewrite !emit_tags, !emit_events.
Qed.

(** ** The watermark over a run *)

Lemma run_same_config cycles : forall me, same_config me (run cycles me).1.
Proof.
  induction cycles as [|c cycles IH]; intros me; [apply same_config_refl|].
  rewrite run_cons. pose proof (check_for_updates_spec c me) as Hc.
  destruct (check_for_updates c me) as [notes me1|e me1].
  - destruct Hc as (new & me0 & _ & Hg & _ & -> & _). simpl.
    destruct Hg as (_ & _ & _ & _ & Hcfg).
    eapply same_config_trans; [exact Hcfg|].
    apply (IH (set_last_check (now c) me0)).
  - destruct Hc as (new & _ & Hg). destruct Hg as (_ & _ & _ & _ & Hcfg).
    eapply same_config_trans; [exact Hcfg|apply IH].
Qed.

Lemma run_last_check cycles : forall me,
  last_check (run cycles me).1 = last_check me \/
  exists c, c ∈ cycles /\ last_check (run cycles me).1 = now c.
Proof.
  induction cycles as [|c cycles IH]; intros me; [by left|].
  rewrite run_cons. pose proof (check_for_updates_spec c me) as Hc.
  destruct (check_for_updates c me) as [notes me1|e me1].
  - destruct Hc as (new & me0 & _ & _ & _ & -> & _). simpl.
    destruct (IH (set_last_check (now c) me0)) as [Heq|(c' & Hin & Heq)].
    + right. exists c. split; [set_solver|]. by rewrite Heq.
    + right. exists c'. split; [set_solver|done].
  - destruct Hc as (new & _ & Hg). destruct Hg as (_ & _ & _ & Ht & _).
    destruct (IH me1) as [Heq|(c' & Hin & Heq)].
    + left. congruence.
    + right. exists c'. split; [set_solver|done].
Qed.

(** X8. The watermark follows the clock, not the events: after a run it is
    the value it had at the start, or the clock reading of one of the
    cycles.  It stays at or above its start value when no cycle reads a
    clock behind it; the code itself does not stop it from moving back. *)
Theorem watermark_follows_clock cycles me :
  (last_check (run cycles me).1 = last_check me \/
   exists c, c ∈ cycles /\ last_check (run cycles me).1 = now c) /\
  ((forall c, c ∈ cycles -> (last_check me <= now c)%Z) ->
   (last_check me <= last_check (run cycles me).1)%Z).
Proof.
  split; [apply run_last_check|]. intros Hclock.
  destruct (run_last_check cycles me) as [->|(c & Hin & ->)]; [lia|].
  by apply Hclock.
Qed.

(** ** Construction: the first watermark *)

(** X9. A monitor just built looks back one hour: of the comments of
    other users, its first fetch turns into events exactly those whose
    timestamp is later than one hour before the construction time. *)
Theorem startup_looks_back_one_hour u p clock b me repo n raw who ca t text :
  __init__ u p false clock b AuthOk = Ret tt me ->
  who <> u ->
  fromisoformat (replace_Z ca) = Some t ->
  returned_events
    (get_pr_comments repo n
       {| view_comments :=
            GhJson (Some [mkRawComment (Some raw) (Some (mkAuthor (Some who)))
                            (Some ca) (Some text)]);
          view_reviews := GhJson None |} me)
  = Some (if (clock - one_hour <? t)%Z
          then [mkPREvent n "comment" who ca (Some (excerpt text))]
          else []).
Proof.
  unfold __init__. simpl. intros [= <-] Hwho Ht.
  unfold get_pr_comments, get_pr_comments_try, bind, run_gh, ret. simpl.
  unfold bind, ret.
  set (fr := {| self := _; events := [] |}).
  set (c := mkRawComment _ _ _ _).
  destruct (comment_body_cases repo n c fr) as [[Hf Hno]|(te & Hev & ->)].
  - destruct (comment_body repo n c fr) as [[] fr1|e fr1] eqn:Hb;
      simpl in Hf; subst fr1.
    + simpl. destruct (Z.ltb_spec (clock - one_hour) t); [|done].
      exfalso. eapply Hno. exists raw, ca, t, who, text. subst c fr. simpl.
      split_and!; try done; set_solver.
    + exfalso. revert Hb. subst c fr. unfold comment_body. run_monad.
      rewrite Ht. simpl.
      destruct (_ && _); [by case_bool_decide|done].
  - destruct Hev as (?&?&t'&?&?&?&?&Ht'&Hlt&?&?&?&?&->). subst c fr.
    simpl in *. simplify_eq.
    by destruct (Z.ltb_spec (clock - one_hour) t); [|lia].
Qed.

(** ** Event ids *)

Lemma string_app_length (a b : string) :
  String.length (a +:+ b) = String.length a + String.length b.
Proof.
  induction a as [|x a IH]; [done|].
  change (S (String.length (a +:+ b)) = S (String.length a + String.length b)).
  by rewrite IH.
Qed.

Lemma string_app_inv_head (s a b : string) : s +:+ a = s +:+ b -> a = b.
Proof.
  induction s as [|x s IH]; [done|].
  change (String x (s +:+ a) = String x (s +:+ b) -> a = b).
  intros [= H]. by apply IH.
Qed.

(** X12. Event ids within one pull request: two comments (two reviews) of
    the same pull request have the same event id only if they have the same
    raw id, and a comment never shares its event id with a review.  Across
    pull requests the id is not injective: the underscore that separates
    its parts may also occur inside them. *)
Theorem event_ids_within_a_pull_request :
  (forall repo n raw raw',
     comment_event_id repo n raw = comment_event_id repo n raw' -> raw = raw') /\
  (forall repo n raw raw',
     review_event_id repo n raw = review_event_id repo n raw' -> raw = raw') /\
  (forall repo n raw repo' n' raw',
     comment_event_id repo n raw <> review_event_id repo' n' raw') /\
  (exists i j, i <> j /\ event_key i = event_key j).
Proof.
  split_and!.
  - unfold comment_event_id. intros repo n raw raw' H.
    by do 5 apply string_app_inv_head in H.
  - unfold review_event_id. intros repo n raw raw' H.
    by do 5 apply string_app_inv_head in H.
  - unfold comment_event_id, review_event_id. intros repo n raw repo' n' raw'.
    change ("comment_" +:+ ?x) with (String "c" ("omment_" +:+ x)).
    change ("review_" +:+ ?x) with (String "r" ("eview_" +:+ x)).
    by intros [= ?].
  - exists (mkIdentity FromComment "octo/repo_1" 2 "IC_1"),
           (mkIdentity FromComment "octo/repo" 1 "2_IC_1").
    split; [done|]. by vm_compute.
Qed.

(** ** Excerpts of comments *)

(** X14. The body of a comment event is bounded: it is the comment's body
    when that has at most 100 characters, and otherwise its first 100
    characters followed by three dots, 103 characters in all. *)
Theorem comment_excerpt_is_bounded repo n c fr te :
  comment_body repo n c fr = Ret tt (push te fr) ->
  exists b e,
    c_body c = Some b /\ body te.2 = Some e /\
    (String.length e <= 103)%nat /\
    ((String.length b <= 100)%nat -> e = b) /\
    ((100 < String.length b)%nat ->
     String.length e = 103%nat /\
     exists head rest,
       b = head +:+ rest /\ String.length head = 100%nat /\ e = head +:+ "...").
Proof.
  intros (raw & ca & t & who & b & _ & _ & _ & _ & _ & _ & Hb & _ & ->)
    %comment_body_appends.
  exists b, (excerpt b). simpl. destruct (excerpt_spec b) as [Hshort Hlong].
  split_and!; try done.
  - destruct (Nat.le_gt_cases (String.length b) 100) as [Hle|Hgt].
    + rewrite (Hshort Hle). lia.
    + destruct (Hlong Hgt) as (head & rest & _ & Hh & ->).
      rewrite string_app_length, Hh. simpl. lia.
  - intros Hgt. destruct (Hlong Hgt) as (head & rest & Hbr & Hh & He).
    split; [|by exists head, rest].
    rewrite He, string_app_length, Hh. simpl. lia.
Qed.

(** ** What a cycle records *)

(** X15. A cycle that runs to its end has recorded exactly what it
    notified: the ledger afterwards is the ledger before together with the
    event ids of the notified events, and there is one flash per new id. *)
Theorem completed_cycle_records_what_it_notifies c me notes me' :
  check_for_updates c me = Ret notes me' ->
  processed_events me' =
    list_to_set (event_key <$> (n_tag <$> notes)) ∪ processed_events me /\
  NoDup (event_key <$> (n_tag <$> notes)) /\
  size (processed_events me') = length notes + size (processed_events me).
Proof.
  intros Hr. pose proof (check_for_updates_spec c me) as Hc. rewrite Hr in Hc.
  destruct Hc as (new & me1 & _ & Hg & _ & -> & ->).
  rewrite emit_tags, <- keys_of_tags. simpl.
  destruct Hg as (Hl & Hnd & Hfresh & _). split_and!; [done|done|].
  rewrite Hl, size_union by set_solver.
  rewrite size_list_to_set by done.
  unfold emit, keys_of. by rewrite length_imap, length_fmap.
Qed.

(** X7. A cycle that an exception aborts flashes nothing, and whatever it
    had recorded by then is lost: those ids are in the ledger, so no later
    cycle notifies them either.  The watermark stays where it was. *)
Theorem aborted_cycle_loses_events c me e me' cycles :
  check_for_updates c me = Raise e me' ->
  run (c :: cycles) me = run cycles me' /\
  last_check me' = last_check me /\
  processed_events me ⊆ processed_events me' /\
  (forall note, note ∈ (run (c :: cycles) me).2 ->
     event_key (n_tag note) ∉ processed_events me').
Proof.
  intros Hr. pose proof (check_for_updates_spec c me) as Hc. rewrite Hr in Hc.
  destruct Hc as (new & _ & Hg).
  assert (Hrun : run (c :: cycles) me = run cycles me').
  { by rewrite run_cons, Hr. }
  split_and!; [done|by destruct Hg as (_&_&_&?&_)|by eapply grows_subseteq|].
  rewrite Hrun. intros note Hin.
  destruct (run_ledger cycles me') as (_ & _ & Hk). apply Hk.
  by do 2 apply list_elem_of_fmap_2.
Qed.

(** ** No qualifying record is dropped *)

Lemma for_each_ledger_mono {X} repo n (body : X -> M Frame unit) :
  (forall x fr, exists new, fetched repo n fr (final (body x fr)) new) ->
  forall l fr,
    processed_events (self fr) ⊆ processed_events (self (final (for_each l body fr))) /\
    last_check (self (final (for_each l body fr))) = last_check (self fr) /\
    same_config (self fr) (self (final (for_each l body fr))).
Proof.
  intros Hbody l fr.
  destruct (for_each_fetched repo n body Hbody l fr) as (new & [_ Hg] & _).
  split; [by eapply grows_subseteq|]. by destruct Hg as (_ & _ & _ & ? & ?).
Qed.

Lemma comment_qualifies_config a b c raw :
  last_check b = last_check a -> same_config a b ->
  comment_qualifies a c raw -> comment_qualifies b c raw.
Proof.
  intros Ht (Hu & _ & Hm & _) (ca & t & who & bd & ? & ? & ? & ?).
  exists ca, t, who, bd. by rewrite Ht, <- Hu, <- Hm.
Qed.

Lemma review_qualifies_config a b r raw :
  last_check b = last_check a -> same_config a b ->
  review_qualifies a r raw -> review_qualifies b r raw.
Proof.
  intros Ht (Hu & _ & Hm & _) (sa & t & who & st & rb & ? & ? & ? & ? & ?).
  exists sa, t, who, st, rb. by rewrite Ht, <- Hu, <- Hm.
Qed.

Lemma comment_qualifies_recorded repo n c raw fr fr1 :
  comment_qualifies (self fr) c raw ->
  comment_body repo n c fr = Ret tt fr1 ->
  comment_event_id repo n raw ∈ processed_events (self fr1).
Proof.
  intros (ca & t & who & b & -> & Ht & Hlt & Hor) Hb.
  destruct (decide (comment_event_id repo n raw ∈ processed_events (self fr)))
    as [Hin|Hnin].
  - destruct (comment_body_fetched repo n
                (mkRawComment (Some raw) (Some (mkAuthor (Some who))) (Some ca) (Some b))
                fr) as (new & [_ Hg] & _).
    rewrite Hb in Hg. by apply (grows_subseteq _ _ _ Hg).
  - assert (comment_body repo n
              (mkRawComment (Some raw) (Some (mkAuthor (Some who))) (Some ca) (Some b)) fr
            = Ret tt (push (mkIdentity FromComment repo n raw,
                            mkPREvent n "comment" who ca (Some (excerpt b))) fr))
      as Hp.
    { apply comment_body_appends. exists raw, ca, t, who, b. simpl.
      split_and!; try done. intros Hm. destruct Hor; congruence. }
    rewrite Hp in Hb. injection Hb as <-. simpl. set_solver.
Qed.

Lemma review_qualifies_recorded repo n r raw fr fr1 :
  review_qualifies (self fr) r raw ->
  review_body repo n r fr = Ret tt fr1 ->
  review_event_id repo n raw ∈ processed_events (self fr1).
Proof.
  intros (sa & t & who & st & rb & -> & Hst & Ht & Hlt & Hor) Hb.
  destruct (decide (review_event_id repo n raw ∈ processed_events (self fr)))
    as [Hin|Hnin].
  - destruct (review_body_fetched repo n
                (mkRawReview (Some raw) (Some (mkAuthor (Some who))) (Some sa) (Some st) rb)
                fr) as (new & [_ Hg] & _).
    rewrite Hb in Hg. by apply (grows_subseteq _ _ _ Hg).
  - assert (review_body repo n
              (mkRawReview (Some raw) (Some (mkAuthor (Some who))) (Some sa) (Some st) rb) fr
            = Ret tt (push (mkIdentity FromReview repo n raw,
                            mkPREvent n (review_event_type st) who sa
                              (Some (default "" rb))) fr))
      as Hp.
    { apply review_body_appends. exists st, raw, sa, t, who. simpl.
      split_and!; try done. intros Hm. destruct Hor; congruence. }
    rewrite Hp in Hb. injection Hb as <-. simpl. set_solver.
Qed.

Lemma for_each_qualifying {X} repo n (body : X -> M Frame unit)
    (qualifies : Monitor -> X -> string -> Prop) (key : string -> string) :
  (forall x fr, exists new, fetched repo n fr (final (body x fr)) new) ->
  (forall a b x raw, last_check b = last_check a -> same_config a b ->
                     qualifies a x raw -> qualifies b x raw) ->
  (forall x raw fr fr1, qualifies (self fr) x raw -> body x fr = Ret tt fr1 ->
                        key raw ∈ processed_events (self fr1)) ->
  forall l fr fr' x raw,
    for_each l body fr = Ret tt fr' -> x ∈ l -> qualifies (self fr) x raw ->
    key raw ∈ processed_events (self fr').
Proof.
  intros Hbody Hcfg Hrec l.
  induction l as [|y l IH]; intros fr fr' x raw Hl Hin Hq; [by inversion Hin|].
  simpl in Hl. unfold bind in Hl.
  destruct (body y fr) as [[] fr1|e fr1] eqn:Hy; [|done].
  pose proof (for_each_ledger_mono repo n body Hbody l fr1) as (Hsub & _ & _).
  rewrite Hl in Hsub. simpl in Hsub.
  apply elem_of_cons in Hin as [->|Hin].
  - apply Hsub. by eapply Hrec.
  - eapply IH; [exact Hl|exact Hin|].
    destruct (Hbody y fr) as (new & [_ Hg] & _). rewrite Hy in Hg. simpl in Hg.
    destruct Hg as (_ & _ & _ & Ht & Hc). by eapply Hcfg.
Qed.

Lemma try_block_records_qualifying repo n v me cs rs fr' :
  view_comments v = GhJson (Some cs) ->
  view_reviews v = GhJson (Some rs) ->
  get_pr_comments_try repo n v {| self := me; events := [] |} = Ret tt fr' ->
  (forall c raw,
     c ∈ cs -> comment_qualifies me c raw ->
     comment_event_id repo n raw ∈ processed_events (self fr')) /\
  (forall r raw,
     r ∈ rs -> review_qualifies me r raw ->
     review_event_id repo n raw ∈ processed_events (self fr')).
Proof.
  intros Hcs Hrs.
  unfold get_pr_comments_try, bind, run_gh, ret. rewrite Hcs, Hrs.
  destruct (for_each cs _ _) as [[] fr1|e fr1] eqn:Hc; [|done].
  intros Hr.
  pose proof (for_each_ledger_mono repo n _ (review_body_fetched repo n) rs fr1)
    as (Hsub & _ & _).
  rewrite Hr in Hsub. simpl in Hsub.
  pose proof (for_each_ledger_mono repo n _ (comment_body_fetched repo n) cs
                {| self := me; events := [] |}) as (_ & Ht1 & Hc1).
  rewrite Hc in Ht1, Hc1. simpl in Ht1, Hc1.
  split.
  - intros c raw Hin Hq. apply Hsub.
    eapply (for_each_qualifying repo n _ comment_qualifies
              (comment_event_id repo n) (comment_body_fetched repo n)
              comment_qualifies_config
              (comment_qualifies_recorded repo n)); [exact Hc|exact Hin|done].
  - intros r raw Hin Hq.
    eapply (for_each_qualifying repo n _ review_qualifies
              (review_event_id repo n) (review_body_fetched repo n)
              review_qualifies_config
              (review_qualifies_recorded repo n)); [exact Hr|exact Hin|].
    by eapply review_qualifies_config.
Qed.

(** X13. No qualifying record is dropped.  When the [try] block of
    [get_pr_comments] ends without an exception, every complete comment and
    every complete review in a recognized state that is newer than the
    watermark and passes the author filter has its event id in the ledger
    afterwards; if the id was not there before the call, an event with this
    id is among the returned ones. *)
Theorem qualifying_records_are_reported repo n v me cs rs fr' :
  view_comments v = GhJson (Some cs) ->
  view_reviews v = GhJson (Some rs) ->
  get_pr_comments_try repo n v {| self := me; events := [] |} = Ret tt fr' ->
  get_pr_comments repo n v me = Ret (events fr') (self fr') /\
  (forall c raw,
     c ∈ cs -> comment_qualifies me c raw ->
     comment_event_id repo n raw ∈ processed_events (self fr') /\
     (comment_event_id repo n raw ∉ processed_events me ->
      comment_event_id repo n raw ∈ keys_of (events fr'))) /\
  (forall r raw,
     r ∈ rs -> review_qualifies me r raw ->
     review_event_id repo n raw ∈ processed_events (self fr') /\
     (review_event_id repo n raw ∉ processed_events me ->
      review_event_id repo n raw ∈ keys_of (events fr'))).
Proof.
  intros Hcs Hrs Htry.
  destruct (get_pr_comments_try_fetched repo n v {| self := me; events := [] |})
    as (new & [Hev Hg] & _).
  rewrite Htry in Hev, Hg. simpl in Hev, Hg. subst new.
  assert (Hnew : forall k, k ∈ processed_events (self fr') ->
                           k ∉ processed_events me -> k ∈ keys_of (events fr')).
  { intros k Hin Hnin. destruct Hg as (Hl & _). rewrite Hl in Hin. set_solver. }
  destruct (try_block_records_qualifying repo n v me cs rs fr' Hcs Hrs Htry)
    as [Hc Hr].
  split_and!.
  - unfold get_pr_comments. by rewrite Htry.
  - intros c raw Hin Hq. split; [by eapply Hc|]. apply Hnew. by eapply Hc.
  - intros r raw Hin Hq. split; [by eapply Hr|]. apply Hnew. by eapply Hr.
Qed.

(** ** Fetching the same answers again *)

Lemma comment_body_again repo n c fr fr1 fr2 :
  comment_body repo n c fr = Ret tt fr1 ->
  last_check (self fr2) = last_check (self fr) ->
  same_config (self fr) (self fr2) ->
  processed_events (self fr1) ⊆ processed_events (self fr2) ->
  comment_body repo n c fr2 = Ret tt fr2.
Proof.
  intros Hb Ht (Hu & _ & Hm & _) Hsub. revert Hb.
  unfold comment_body. run_monad.
  destruct c as [cid cau [ca|] cb]; simpl; [|done].
  destruct (fromisoformat (replace_Z ca)) as [t|]; simpl; [|done].
  rewrite Ht, <- Hu, <- Hm.
  destruct (test_mode (self fr)), cau as [[[who|]]|]; simpl; try done;
    repeat match goal with
           | |- context [if (?a && ?b) then _ else _] => destruct (a && b); simpl
           end; try done;
    destruct cid as [raw|]; simpl; try done;
    repeat case_bool_decide; simpl; try done;
    destruct cb as [b|]; simpl; try done;
    intros [= <-]; simpl in *; set_solver.
Qed.

Lemma review_body_again repo n r fr fr1 fr2 :
  review_body repo n r fr = Ret tt fr1 ->
  last_check (self fr2) = last_check (self fr) ->
  same_config (self fr) (self fr2) ->
  processed_events (self fr1) ⊆ processed_events (self fr2) ->
  review_body repo n r fr2 = Ret tt fr2.
Proof.
  intros Hb Ht (Hu & _ & Hm & _) Hsub. revert Hb.
  unfold review_body. run_monad.
  destruct r as [rid rau rsa [st|] rb]; simpl; [|done].
  destruct (recognized_state st); simpl; [|done].
  destruct rsa as [sa|]; simpl; [|done].
  destruct (fromisoformat (replace_Z sa)) as [t|]; simpl; [|done].
  rewrite Ht, <- Hu, <- Hm.
  destruct (test_mode (self fr)), rau as [[[who|]]|]; simpl; try done;
    repeat match goal with
           | |- context [if (?a && ?b) then _ else _] => destruct (a && b); simpl
           end; try done;
    destruct rid as [raw|]; simpl; try done;
    repeat case_bool_decide; simpl; try done;
    intros [= <-]; simpl in *; set_solver.
Qed.

Lemma comment_body_same_self repo n c fr fr2 e fr' :
  comment_body repo n c fr = Raise e fr' -> self fr2 = self fr ->
  comment_body repo n c fr2 = Raise e fr2.
Proof.
  intros Hb Hs. revert Hb. unfold comment_body. run_monad.
  destruct c as [cid cau [ca|] cb]; simpl; [|by intros [= <- _]].
  destruct (fromisoformat (replace_Z ca)) as [t|]; simpl; [|by intros [= <- _]].
  rewrite Hs.
  destruct (test_mode (self fr)), cau as [[[who|]]|], cid as [raw|], cb as [b|];
    simpl;
    repeat match goal with
           | |- context [if ?b then _ else _] => destruct b; simpl
           end;
    by intros [= <- _].
Qed.

Lemma review_body_same_self repo n r fr fr2 e fr' :
  review_body repo n r fr = Raise e fr' -> self fr2 = self fr ->
  review_body repo n r fr2 = Raise e fr2.
Proof.
  intros Hb Hs. revert Hb. unfold review_body. run_monad.
  destruct r as [rid rau rsa [st|] rb]; simpl; [|by intros [= <- _]].
  destruct (recognized_state st); simpl; [|done].
  destruct rsa as [sa|]; simpl; [|by intros [= <- _]].
  destruct (fromisoformat (replace_Z sa)) as [t|]; simpl; [|by intros [= <- _]].
  rewrite Hs.
  destruct (test_mode (self fr)), rau as [[[who|]]|], rid as [raw|];
    simpl;
    repeat match goal with
           | |- context [if ?b then _ else _] => destruct b; simpl
           end;
    by intros [= <- _].
Qed.

Lemma for_each_again {X} repo n (body : X -> M Frame unit) :
  (forall x fr, exists new, fetched repo n fr (final (body x fr)) new) ->
  (forall x fr fr1 fr2,
     body x fr = Ret tt fr1 ->
     last_check (self fr2) = last_check (self fr) ->
     same_config (self fr) (self fr2) ->
     processed_events (self fr1) ⊆ processed_events (self fr2) ->
     body x fr2 = Ret tt fr2) ->
  (forall x fr fr2 e fr',
     body x fr = Raise e fr' -> self fr2 = self fr -> body x fr2 = Raise e fr2) ->
  (forall x fr e fr', body x fr = Raise e fr' -> fr' = fr) ->
  forall l fr fr2,
    last_check (self fr2) = last_check (self fr) ->
    same_config (self fr) (self fr2) ->
    match for_each l body fr with
    | Ret _ frf =>
        processed_events (self frf) ⊆ processed_events (self fr2) ->
        for_each l body fr2 = Ret tt fr2
    | Raise e frf =>
        self fr2 = self frf -> for_each l body fr2 = Raise e fr2
    end.
Proof.
  intros Hbody HA HB HR l.
  induction l as [|x l IH]; intros fr fr2 Ht Hc; simpl; [done|].
  unfold bind. destruct (body x fr) as [[] fr1|e fr1] eqn:Hx.
  - destruct (Hbody x fr) as (new & [_ Hg] & _). rewrite Hx in Hg. simpl in Hg.
    destruct Hg as (_ & _ & _ & Ht1 & Hc1).
    pose proof (for_each_ledger_mono repo n body Hbody l fr1) as (Hsub & _ & _).
    assert (Ht2 : last_check (self fr2) = last_check (self fr1)) by congruence.
    assert (Hc2 : same_config (self fr1) (self fr2)).
    { destruct Hc1 as (?&?&?&?), Hc as (?&?&?&?). repeat split; congruence. }
    specialize (IH fr1 fr2 Ht2 Hc2).
    destruct (for_each l body fr1) as [[] frf|e frf]; simpl in *.
    + intros Hle. rewrite (HA x fr fr1 fr2 Hx Ht Hc); [by apply IH|].
      set_solver.
    + intros Hs. rewrite (HA x fr fr1 fr2 Hx Ht Hc); [by apply IH|].
      rewrite Hs. done.
  - intros Hs. apply HR in Hx as Hfr. subst fr1.
    by rewrite (HB x fr fr2 e fr Hx Hs).
Qed.

Lemma two_loops_again repo n cs (rvs : GhOut (list RawReview)) fr0 fr2 :
  let prog := fun fr : Frame =>
    match for_each cs (comment_body repo n) fr with
    | Ret _ fr1 =>
        match rvs with
        | GhJson rs => for_each rs (review_body repo n) fr1
        | GhCalledProcessError => Raise CalledProcessError fr1
        | GhJSONDecodeError => Raise JSONDecodeError fr1
        end
    | Raise e fr1 => Raise e fr1
    end in
  self fr2 = self (final (prog fr0)) ->
  prog fr2 = match prog fr0 with
             | Ret _ _ => Ret tt fr2
             | Raise e _ => Raise e fr2
             end.
Proof.
  intros prog. unfold prog.
  pose proof (for_each_ledger_mono repo n _ (comment_body_fetched repo n) cs fr0)
    as (Hsub1 & Ht1 & Hc1).
  destruct (for_each cs (comment_body repo n) fr0) as [[] fr1|e1 fr1] eqn:Hcs;
    simpl in *.
  - assert (Hfirst : forall frf,
      self fr2 = self frf ->
      processed_events (self fr1) ⊆ processed_events (self frf) ->
      last_check (self frf) = last_check (self fr1) ->
      same_config (self fr1) (self frf) ->
      for_each cs (comment_body repo n) fr2 = Ret tt fr2).
    { intros frf Hs Hsub Ht Hc.
      assert (Ht2 : last_check (self fr2) = last_check (self fr0)) by congruence.
      assert (Hc2 : same_config (self fr0) (self fr2)).
      { rewrite Hs. by eapply same_config_trans. }
      pose proof (for_each_again repo n _ (comment_body_fetched repo n)
                    (comment_body_again repo n) (comment_body_same_self repo n)
                    (comment_body_raise repo n) cs fr0 fr2 Ht2 Hc2) as H.
      rewrite Hcs in H. apply H. by rewrite Hs. }
    destruct rvs as [| |rs]; simpl.
    + intros Hs. rewrite (Hfirst fr1 Hs); [done..|apply same_config_refl].
    + intros Hs. rewrite (Hfirst fr1 Hs); [done..|apply same_config_refl].
    + pose proof (for_each_ledger_mono repo n _ (review_body_fetched repo n) rs fr1)
        as (Hsub2 & Ht2 & Hc2).
      intros Hs. rewrite (Hfirst _ Hs Hsub2 Ht2 Hc2).
      assert (Ht3 : last_check (self fr2) = last_check (self fr1)) by congruence.
      assert (Hc3 : same_config (self fr1) (self fr2)) by (by rewrite Hs).
      pose proof (for_each_again repo n _ (review_body_fetched repo n)
                    (review_body_again repo n) (review_body_same_self repo n)
                    (review_body_raise repo n) rs fr1 fr2 Ht3 Hc3) as H.
      destruct (for_each rs (review_body repo n) fr1) as [[] frf|e frf];
        simpl in *; apply H; by rewrite Hs.
  - intros Hs.
    assert (Ht2 : last_check (self fr2) = last_check (self fr0)) by congruence.
    assert (Hc2 : same_config (self fr0) (self fr2)) by (by rewrite Hs).
    pose proof (for_each_again repo n _ (comment_body_fetched repo n)
                  (comment_body_again repo n) (comment_body_same_self repo n)
                  (comment_body_raise repo n) cs fr0 fr2 Ht2 Hc2) as H.
    rewrite Hcs in H. by rewrite (H Hs).
Qed.

Lemma get_pr_comments_try_again repo n v fr0 fr2 :
  self fr2 = self (final (get_pr_comments_try repo n v fr0)) ->
  get_pr_comments_try repo n v fr2 =
  match get_pr_comments_try repo n v fr0 with
  | Ret _ _ => Ret tt fr2
  | Raise e _ => Raise e fr2
  end.
Proof.
  unfold get_pr_comments_try, bind, run_gh, ret, raise.
  destruct (view_comments v) as [| |ocs]; simpl; [done|done|].
  intros Hs.
  pose proof (two_loops_again repo n (default [] ocs)
                (match view_reviews v with
                 | GhJson ors => GhJson (default [] ors)
                 | GhCalledProcessError => GhCalledProcessError
                 | GhJSONDecodeError => GhJSONDecodeError
                 end) fr0 fr2) as H.
  destruct ocs as [cs|], (view_reviews v) as [| |[rs|]]; simpl in *;
    unfold ret in *; by apply H.
Qed.

(** X11. Fetching the same answers again is silent: when a call of
    [get_pr_comments] has returned, a second call with the same answers of
    [gh], made in the state the first one left, returns no event and leaves
    the monitor as it is. *)
Theorem refetch_is_silent repo n v me evs me1 :
  get_pr_comments repo n v me = Ret evs me1 ->
  get_pr_comments repo n v me1 = Ret [] me1.
Proof.
  unfold get_pr_comments. intros Hr.
  assert (Hs : me1 = self (final (get_pr_comments_try repo n v
                                    {| self := me; events := [] |}))).
  { destruct (get_pr_comments_try _ _ _ _) as [[] fr|e fr]; simpl;
      [|destruct (caught e)]; by simplify_eq. }
  rewrite (get_pr_comments_try_again repo n v {| self := me; events := [] |}
             {| self := me1; events := [] |} Hs).
  destruct (get_pr_comments_try _ _ _ _) as [[] fr|e fr]; [done|].
  by destruct (caught e).
Qed.

(** ** The order of the events *)

Lemma for_each_comments_order repo n cs : forall fr,
  exists new,
    events (final (for_each cs (comment_body repo n) fr)) = events fr ++ new /\
    Forall (fun te => origin te.1 = FromComment) new /\
    sublist (raw_ids new) (c_id <$> cs).
Proof.
  induction cs as [|c cs IH]; intros fr; simpl.
  - exists []. by rewrite app_nil_r.
  - unfold bind.
    destruct (comment_body_cases repo n c fr) as [[Hf _]|(te & Hev & ->)].
    + destruct (comment_body repo n c fr) as [[] fr1|e fr1]; simpl in Hf; subst.
      * destruct (IH fr) as (new & ? & ? & ?). exists new.
        split_and!; [done|done|by apply sublist_cons].
      * exists []. simpl. rewrite app_nil_r.
        split_and!; [done|done|apply sublist_nil_l].
    + destruct (IH (push te fr)) as (new & Hnew & Ho & Hsub).
      exists (te :: new). split_and!.
      * rewrite Hnew. simpl. by rewrite <- app_assoc.
      * constructor; [|done].
        by destruct Hev as (?&?&?&?&?&?&?&?&?&?&?&?&?&->).
      * destruct Hev as (raw&?&?&?&?&Hid&?&?&?&?&?&?&?&->).
        rewrite Hid. simpl. by apply sublist_skip.
Qed.

Lemma for_each_reviews_order repo n rs : forall fr,
  exists new,
    events (final (for_each rs (review_body repo n) fr)) = events fr ++ new /\
    Forall (fun te => origin te.1 = FromReview) new /\
    sublist (raw_ids new) (r_id <$> rs).
Proof.
  induction rs as [|r rs IH]; intros fr; simpl.
  - exists []. by rewrite app_nil_r.
  - unfold bind.
    destruct (review_body_cases repo n r fr) as [[Hf _]|(te & Hev & ->)].
    + destruct (review_body repo n r fr) as [[] fr1|e fr1]; simpl in Hf; subst.
      * destruct (IH fr) as (new & ? & ? & ?). exists new.
        split_and!; [done|done|by apply sublist_cons].
      * exists []. simpl. rewrite app_nil_r.
        split_and!; [done|done|apply sublist_nil_l].
    + destruct (IH (push te fr)) as (new & Hnew & Ho & Hsub).
      exists (te :: new). split_and!.
      * rewrite Hnew. simpl. by rewrite <- app_assoc.
      * constructor; [|done].
        by destruct Hev as (?&?&?&?&?&?&?&?&?&?&?&?&?&?&->).
      * destruct Hev as (?&raw&?&?&?&?&?&Hid&?&?&?&?&?&?&->).
        rewrite Hid. simpl. by apply sublist_skip.
Qed.

Lemma get_pr_comments_try_order repo n v fr :
  exists ce re,
    events (final (get_pr_comments_try repo n v fr)) = events fr ++ ce ++ re /\
    Forall (fun te => origin te.1 = FromComment) ce /\
    sublist (raw_ids ce) (c_id <$> comments_of v) /\
    Forall (fun te => origin te.1 = FromReview) re /\
    sublist (raw_ids re) (r_id <$> reviews_of v).
Proof.
  assert (Hnone : exists ce re : list TaggedEvent,
    events fr = events fr ++ ce ++ re /\
    Forall (fun te => origin te.1 = FromComment) ce /\
    sublist (raw_ids ce) (c_id <$> comments_of v) /\
    Forall (fun te => origin te.1 = FromReview) re /\
    sublist (raw_ids re) (r_id <$> reviews_of v)).
  { exists [], []. rewrite app_nil_r.
    split_and!; try done; apply sublist_nil_l. }
  unfold get_pr_comments_try, bind, run_gh, ret, raise, comments_of, reviews_of
    in *.
  destruct (view_comments v) as [| |ocs]; simpl; [done|done|].
  destruct (for_each_comments_order repo n (default [] ocs) fr)
    as (ce & Hce & Hoc & Hsc).
  assert (exists r1,
    r1 = match ocs with
         | Some comments => for_each comments (comment_body repo n)
         | None => fun s => Ret tt s
         end fr /\
    events (final r1) = events fr ++ ce) as (r1 & Hr1 & Hev1).
  { eexists. split; [reflexivity|]. by destruct ocs. }
  rewrite <- Hr1.
  assert (Hsc' : sublist (raw_ids ce)
                   (c_id <$> match ocs with Some cs => cs | None => [] end)).
  { by destruct ocs. }
  destruct r1 as [[] fr1|e fr1]; simpl in *.
  - destruct (view_reviews v) as [| |ors]; simpl.
    1,2: exists ce, []; rewrite app_nil_r;
         split_and!; try done; apply sublist_nil_l.
    destruct (for_each_reviews_order repo n (default [] ors) fr1)
      as (re & Hre & Hor & Hsr).
    exists ce, re. split; [|by destruct ors].
    rewrite app_assoc, <- Hev1. by destruct ors.
  - exists ce, []. rewrite app_nil_r.
    split_and!; try done; apply sublist_nil_l.
Qed.

Lemma fetch_all_segments vs prs : forall i acc me new me1,
  fetch_all i prs vs acc me = Ret new me1 ->
  exists segs,
    new = acc ++ concat segs /\
    Forall2 (fun pr seg => Forall (from_subject (repository pr) (number pr)) seg)
            prs segs.
Proof.
  induction prs as [|pr prs IH]; intros i acc me new me1; simpl.
  - intros [= <- _]. exists []. simpl. by rewrite app_nil_r.
  - unfold bind.
    destruct (get_pr_comments_spec (repository pr) (number pr) (vs i) me)
      as (seg & _ & _ & Hs & He).
    destruct (get_pr_comments _ _ _ me) as [evs me0|]; [|done].
    rewrite (He _ _ eq_refl). intros Hr.
    destruct (IH _ _ _ _ _ Hr) as (segs & -> & Hall).
    exists (seg :: segs). simpl. split; [by rewrite app_assoc|by constructor].
Qed.

(** X6. Events keep the order in which they were fetched.  One call of
    [get_pr_comments] returns the events of the comments, in the order of
    the comments, and then those of the reviews, in the order of the
    reviews.  A cycle collects the events pull request by pull request, in
    the order of the search result, and notifies them in that order. *)
Theorem events_keep_fetch_order :
  (forall repo n v me evs me',
     get_pr_comments repo n v me = Ret evs me' ->
     exists ce re,
       evs = ce ++ re /\
       Forall (fun te => origin te.1 = FromComment) ce /\
       sublist (raw_ids ce) (c_id <$> comments_of v) /\
       Forall (fun te => origin te.1 = FromReview) re /\
       sublist (raw_ids re) (r_id <$> reviews_of v)) /\
  (forall c me prs notes me',
     get_user_prs (search c) me = Ret prs me ->
     check_for_updates c me = Ret notes me' ->
     exists segs,
       n_tag <$> notes = (concat segs).*1 /\
       n_event <$> notes = (concat segs).*2 /\
       Forall2 (fun pr seg => Forall (from_subject (repository pr) (number pr)) seg)
               prs segs).
Proof.
  split.
  - intros repo n v me evs me' Hr.
    destruct (get_pr_comments_try_order repo n v {| self := me; events := [] |})
      as (ce & re & Hev & H). simpl in Hev.
    exists ce, re. split; [|done]. revert Hr. unfold get_pr_comments.
    destruct (get_pr_comments_try _ _ _ _) as [[] fr|e fr]; simpl in *.
    + by intros [= <- _].
    + destruct (caught e); [|done]. by intros [= <- _].
  - intros c me prs notes me' Hprs Hr.
    pose proof (check_for_updates_spec c me) as Hc. rewrite Hr in Hc.
    destruct Hc as (new & me1 & Hcol & _ & _ & _ & ->).
    unfold collect, bind in Hcol. rewrite Hprs in Hcol.
    destruct (fetch_all_segments _ _ _ _ _ _ _ Hcol) as (segs & -> & Hall).
    exists segs. by rewrite emit_tags, emit_events.
Qed.

(** ** The command line: [main] *)

Lemma resolve_username_cases strip arg env gh :
  match resolve_username strip arg env gh with
  | inl u =>
      (truthy arg = true /\ arg = Some u) \/
      (truthy arg = false /\ truthy env = true /\ env = Some u) \/
      (truthy arg = false /\ truthy env = false /\
       exists out, gh = UserStdout out /\ u = strip out)
  | inr out =>
      truthy arg = false /\ truthy env = false /\
      ((gh = UserCalledProcessError /\ out = ExitUsernameRequired) \/
       (gh = UserFileNotFoundError /\ out = Uncaught FileNotFoundError))
  end.
Proof.
  unfold resolve_username, py_or.
  destruct arg as [[|a u]|], env as [[|b w]|], gh; simpl; naive_solver.
Qed.

(** X10. How [main] finds the username.  It ends with [exit(1)] exactly
    when [--username] is absent or empty, [GITHUB_USERNAME] is unset or
    empty and [gh api user] fails.  When the monitor is started, its
    username is the non-empty [--username]; failing that the non-empty
    environment variable; failing that the stripped output of [gh]; the
    loop keeps that username, and [--interval] and [--test-mode] are the
    monitor's [poll_interval] and [test_mode]. *)
Theorem main_username_resolution strip args env gh clock b dev auth cycles :
  (main strip args env gh clock b dev auth cycles = ExitUsernameRequired <->
   truthy (a_username args) = false /\ truthy env = false /\
   gh = UserCalledProcessError) /\
  (forall m notes,
     main strip args env gh clock b dev auth cycles = Ran m notes ->
     a_test args = false /\ auth = AuthOk /\
     poll_interval m = a_interval args /\ test_mode m = a_test_mode args /\
     ((truthy (a_username args) = true /\ a_username args = Some (username m)) \/
      (truthy (a_username args) = false /\ truthy env = true /\
       env = Some (username m)) \/
      (truthy (a_username args) = false /\ truthy env = false /\
       exists out, gh = UserStdout out /\ username m = strip out))).
Proof.
  unfold main.
  pose proof (resolve_username_cases strip (a_username args) env gh) as Hres.
  destruct (resolve_username strip (a_username args) env gh) as [u|out].
  - split.
    + split.
      * destruct (a_test args); [done|]. unfold __init__.
        destruct auth; simpl; try done. by destruct (run cycles _).
      * intros (Ha & He & Hgh).
        destruct Hres as [[? _]|[(_ & ? & _)|(_ & _ & out & ? & _)]]; congruence.
    + intros m notes. destruct (a_test args); [done|].
      unfold __init__. destruct auth; simpl; try done.
      set (m0 := {| username := u |}).
      pose proof (run_same_config cycles m0) as (Hu & Hp & Ht & _).
      destruct (run cycles m0) as [m1 notes1]. simpl in *.
      intros [= <- <-]. rewrite <- Hu, <- Hp, <- Ht. split_and!; try done.
  - destruct Hres as (Ha & He & [[-> ->]|[-> ->]]); split; try done.
    split; [done|]. by intros (_ & _ & ?).
Qed.

(** X16. [--test] never starts the monitor.  With [--test] the outcome of
    [main] does not depend on [gh auth status] or on anything a poll would
    read, and whenever a username can be resolved it is [exit(0)] after the
    device test, whether or not that test got through. *)
Theorem self_test_never_starts_the_monitor strip args env gh clock b dev auth cycles :
  a_test args = true ->
  (forall auth' cycles',
     main strip args env gh clock b dev auth cycles =
     main strip args env gh clock b dev auth' cycles') /\
  (forall m notes, main strip args env gh clock b dev auth cycles <> Ran m notes) /\
  (truthy (a_username args) = true \/ truthy env = true \/
   (exists out, gh = UserStdout out) ->
   main strip args env gh clock b dev auth cycles = ExitAfterTest (blink_test b dev)).
Proof.
  intros Htest. unfold main. rewrite Htest.
  pose proof (resolve_username_cases strip (a_username args) env gh) as Hres.
  destruct (resolve_username strip (a_username args) env gh) as [u|out].
  - by split_and!.
  - destruct Hres as (Ha & He & [[-> ->]|[-> ->]]); split_and!; try done.
    + intros [?|[?|[? ?]]]; congruence.
    + intros [?|[?|[? ?]]]; congruence.
Qed.

(** ** The configuration over a run *)

(** X17. Nothing in the loop reconfigures the monitor: after any run the
    username, the poll interval, the test-mode flag and the device handle
    are what they were at the start; only the ledger and the watermark
    change. *)
Theorem run_keeps_configuration cycles me :
  username (run cycles me).1 = username me /\
  poll_interval (run cycles me).1 = poll_interval me /\
  test_mode (run cycles me).1 = test_mode me /\
  blink1 (run cycles me).1 = blink1 me.
Proof.
  destruct (run_same_config cycles me) as (? & ? & ? & ?). by split_and!.
Qed.

(** ** Every qualifying record is notified *)

(** X18. In a cycle that runs to its end, take a pull request whose [try]
    block, at its turn, ended without an exception.  Every comment and
    review of it that qualifies (complete, newer than the watermark, passing
    the author filter, the review in a recognized state) and whose event id
    was not in the ledger when the cycle began is notified in this cycle:
    an event with its id is among the notifications. *)
Theorem qualifying_records_are_notified c me prs notes me' j pr acc m1 cs rs fr' :
  get_user_prs (search c) me = Ret prs me ->
  check_for_updates c me = Ret notes me' ->
  prs !! j = Some pr ->
  fetch_all 0 (take j prs) (views c) [] me = Ret acc m1 ->
  view_comments (views c j) = GhJson (Some cs) ->
  view_reviews (views c j) = GhJson (Some rs) ->
  get_pr_comments_try (repository pr) (number pr) (views c j)
    {| self := m1; events := [] |} = Ret tt fr' ->
  (forall x raw,
     x ∈ cs -> comment_qualifies me x raw ->
     comment_event_id (repository pr) (number pr) raw ∉ processed_events me ->
     comment_event_id (repository pr) (number pr) raw
       ∈ event_key <$> (n_tag <$> notes)) /\
  (forall r raw,
     r ∈ rs -> review_qualifies me r raw ->
     review_event_id (repository pr) (number pr) raw ∉ processed_events me ->
     review_event_id (repository pr) (number pr) raw
       ∈ event_key <$> (n_tag <$> notes)).
Proof.
  intros Hprs Hr Hj Hpre Hcs Hrs Htry.
  pose proof (check_for_updates_spec c me) as Hc. rewrite Hr in Hc.
  destruct Hc as (new & me1 & Hcol & Hg & _ & -> & ->).
  rewrite emit_tags, <- keys_of_tags.
  unfold collect, bind in Hcol. rewrite Hprs in Hcol.
  rewrite <- (take_drop_middle prs j pr Hj), fetch_all_app, Hpre in Hcol.
  simpl in Hcol. unfold bind in Hcol.
  rewrite length_take_le in Hcol by (apply lookup_lt_Some in Hj; lia).
  unfold get_pr_comments in Hcol at 1. rewrite Htry in Hcol.
  destruct (fetch_all_spec (views c) (drop (S j) prs) (S j) (acc ++ events fr')
              (self fr')) as (rest & Hgrest & _ & _).
  rewrite Hcol in Hgrest. simpl in Hgrest.
  pose proof (grows_subseteq _ _ _ Hgrest) as Hsub.
  destruct (fetch_all_spec (views c) (take j prs) 0 [] me) as (pre & Hgpre & _ & _).
  rewrite Hpre in Hgpre. simpl in Hgpre.
  destruct Hgpre as (_ & _ & _ & Htpre & Hcpre).
  destruct (try_block_records_qualifying _ _ _ _ _ _ _ Hcs Hrs Htry) as [Hqc Hqr].
  destruct Hg as (Hl & _).
  split.
  - intros x raw Hin Hq Hfresh.
    assert (comment_event_id (repository pr) (number pr) raw ∈ processed_events me1)
      as Hk.
    { apply Hsub. eapply Hqc; [exact Hin|]. by eapply comment_qualifies_config. }
    rewrite Hl in Hk. set_solver.
  - intros r raw Hin Hq Hfresh.
    assert (review_event_id (repository pr) (number pr) raw ∈ processed_events me1)
      as Hk.
    { apply Hsub. eapply Hqr; [exact Hin|]. by eapply review_qualifies_config. }
    rewrite Hl in Hk. set_solver.
Qed.

(** X19. Without [--test], once a username is resolved, what stops the
    start is [gh] alone: an unauthenticated [gh] ends [main] with the
    exception "gh CLI authentication required", a missing [gh] with
    "gh CLI not installed", in both cases before any poll and whether or
    not the device was reached; with [gh] ready the loop runs, from an
    empty ledger and a watermark one hour back. *)
Theorem gh_failure_stops_startup strip args env gh clock b dev auth cycles u :
  a_test args = false ->
  resolve_username strip (a_username args) env gh = inl u ->
  (auth = AuthCalledProcessError ->
   main strip args env gh clock b dev auth cycles
   = Uncaught (Exception "gh CLI authentication required")) /\
  (auth = AuthFileNotFoundError ->
   main strip args env gh clock b dev auth cycles
   = Uncaught (Exception "gh CLI not installed")) /\
  (auth = AuthOk ->
   main strip args env gh clock b dev auth cycles
   = Ran (run cycles
            {| username := u; poll_interval := a_interval args;
               test_mode := a_test_mode args; processed_events := ∅;
               last_check := (clock - one_hour)%Z;
               blink1 := _init_blink1 b |}).1
         (run cycles
            {| username := u; poll_interval := a_interval args;
               test_mode := a_test_mode args; processed_events := ∅;
               last_check := (clock - one_hour)%Z;
               blink1 := _init_blink1 b |}).2).
Proof.
  intros Htest Hres. unfold main. rewrite Hres, Htest. unfold __init__.
  split_and!; intros ->; simpl; try done.
  by destruct (run cycles _).
Qed.

(** * The self-filter and the degraded cycle, through the whole cycle *)

Lemma flash_for_event_blink1 a b ev dev :
  blink1 a = blink1 b -> flash_for_event a ev dev = flash_for_event b ev dev.
Proof. unfold flash_for_event. by intros ->. Qed.

Lemma emit_lookup me devs new note :
  note ∈ emit me devs new ->
  exists k te,
    new !! k = Some te /\ emit me devs new !! k = Some note /\
    note = {| n_tag := te.1; n_event := te.2;
              n_flash := flash_for_event me te.2 (devs k) |}.
Proof.
  unfold emit. intros (k & te & -> & Hk)%elem_of_lookup_imap.
  exists k, te. split_and!; [done| |done].
  by rewrite list_lookup_imap, Hk.
Qed.

Lemma get_pr_comments_single_comment repo n c me te :
  comment_event repo n c me te ->
  get_pr_comments repo n
    {| view_comments := GhJson (Some [c]); view_reviews := GhJson None |} me
  = Ret [te] (add_processed (event_key te.1) me).
Proof.
  intros Hev.
  pose proof (proj2 (comment_body_appends repo n c {| self := me; events := [] |} te)
                Hev) as Hb.
  unfold get_pr_comments, get_pr_comments_try, bind, run_gh, ret. simpl.
  unfold bind. by rewrite Hb.
Qed.

Lemma get_pr_comments_single_review repo n r me te :
  review_event repo n r me te ->
  get_pr_comments repo n
    {| view_comments := GhJson None; view_reviews := GhJson (Some [r]) |} me
  = Ret [te] (add_processed (event_key te.1) me).
Proof.
  intros Hev.
  pose proof (proj2 (review_body_appends repo n r {| self := me; events := [] |} te)
                Hev) as Hb.
  unfold get_pr_comments, get_pr_comments_try, bind, run_gh, ret. simpl.
  unfold bind. by rewrite Hb.
Qed.

Lemma check_for_updates_single c me n ttl repo u evs me1 :
  search c = GhJson [mkSearchItem (Some n) (Some ttl)
                       (Some (mkRepository (Some repo))) (Some u)] ->
  get_pr_comments repo n (views c 0) me = Ret evs me1 ->
  check_for_updates c me =
  Ret (emit me1 (device c) evs) (set_last_check (now c) me1).
Proof.
  intros Hs Hg.
  unfold check_for_updates, collect, bind, get, modify, ret. rewrite Hs. simpl.
  unfold pr_of_item, bind, subscript, ret. simpl. unfold bind. by rewrite Hg.
Qed.

Lemma cycle_records_qualifying c me prs notes me' j pr acc m1 cs rs fr' :
  get_user_prs (search c) me = Ret prs me ->
  check_for_updates c me = Ret notes me' ->
  prs !! j = Some pr ->
  fetch_all 0 (take j prs) (views c) [] me = Ret acc m1 ->
  view_comments (views c j) = GhJson (Some cs) ->
  view_reviews (views c j) = GhJson (Some rs) ->
  get_pr_comments_try (repository pr) (number pr) (views c j)
    {| self := m1; events := [] |} = Ret tt fr' ->
  (forall x raw,
     x ∈ cs -> comment_qualifies me x raw ->
     comment_event_id (repository pr) (number pr) raw ∉ processed_events me ->
     exists k note,
       notes !! k = Some note /\
       event_key (n_tag note) = comment_event_id (repository pr) (number pr) raw /\
       n_flash note = flash_for_event me (n_event note) (device c k)) /\
  (forall r raw,
     r ∈ rs -> review_qualifies me r raw ->
     review_event_id (repository pr) (number pr) raw ∉ processed_events me ->
     exists k note,
       notes !! k = Some note /\
       event_key (n_tag note) = review_event_id (repository pr) (number pr) raw /\
       n_flash note = flash_for_event me (n_event note) (device c k)).
Proof.
  intros Hprs Hr Hj Hpre Hcs Hrs Htry.
  pose proof (check_for_updates_spec c me) as Hc. rewrite Hr in Hc.
  destruct Hc as (new & me1 & Hcol & Hg & _ & -> & ->).
  unfold collect, bind in Hcol. rewrite Hprs in Hcol.
  rewrite <- (take_drop_middle prs j pr Hj), fetch_all_app, Hpre in Hcol.
  simpl in Hcol. unfold bind in Hcol.
  rewrite length_take_le in Hcol by (apply lookup_lt_Some in Hj; lia).
  unfold get_pr_comments in Hcol at 1. rewrite Htry in Hcol.
  destruct (fetch_all_spec (views c) (drop (S j) prs) (S j) (acc ++ events fr')
              (self fr')) as (rest & Hgrest & _ & _).
  rewrite Hcol in Hgrest. simpl in Hgrest.
  pose proof (grows_subseteq _ _ _ Hgrest) as Hsub.
  destruct (fetch_all_spec (views c) (take j prs) 0 [] me) as (pre & Hgpre & _ & _).
  rewrite Hpre in Hgpre. simpl in Hgpre.
  destruct Hgpre as (_ & _ & _ & Htpre & Hcpre).
  destruct (try_block_records_qualifying _ _ _ _ _ _ _ Hcs Hrs Htry) as [Hqc Hqr].
  destruct Hg as (Hl & _ & _ & _ & _ & _ & _ & Hb1).
  assert (Hnote : forall key,
    key ∈ processed_events me1 -> key ∉ processed_events me ->
    exists k note,
      emit me1 (device c) new !! k = Some note /\
      event_key (n_tag note) = key /\
      n_flash note = flash_for_event me (n_event note) (device c k)).
  { intros key Hk Hfresh. rewrite Hl in Hk.
    assert (key ∈ event_key <$> (n_tag <$> emit me1 (device c) new)) as Hin.
    { rewrite emit_tags, <- keys_of_tags. set_solver. }
    apply list_elem_of_fmap in Hin as (tag & -> & Hin).
    apply list_elem_of_fmap in Hin as (note & -> & Hin).
    apply emit_lookup in Hin as (k & te & _ & Hk' & ->).
    exists k. eexists. split; [exact Hk'|]. split; [done|]. simpl.
    by apply flash_for_event_blink1. }
  split.
  - intros x raw Hin Hq Hfresh. apply Hnote; [|done].
    apply Hsub. eapply Hqc; [exact Hin|]. by eapply comment_qualifies_config.
  - intros r raw Hin Hq Hfresh. apply Hnote; [|done].
    apply Hsub. eapply Hqr; [exact Hin|]. by eapply review_qualifies_config.
Qed.

(** C7. Self-filter.  With [test_mode] off, a comment or review whose author
    login is the monitored user appends no event and changes nothing, and no
    event notified in a cycle is by that user.  With [test_mode] on, a
    complete record by the monitored user that is newer than the watermark
    and not yet in the ledger (and, for a review, in a recognized state)
    does give an event: the loop body appends it, [get_pr_comments] returns
    it and records its id, and [check_for_updates] calls [flash_for_event]
    on it; in a batch of records whose [try] block ends without an
    exception, an event with its id is among the notifications of the
    cycle. *)
Theorem self_filter repo n fr :
  (test_mode (self fr) = false ->
   (forall c, c_author c = Some (mkAuthor (Some (username (self fr)))) ->
      final (comment_body repo n c fr) = fr) /\
   (forall r, r_author r = Some (mkAuthor (Some (username (self fr)))) ->
      final (review_body repo n r fr) = fr) /\
   (forall c notes me',
      check_for_updates c (self fr) = Ret notes me' ->
      Forall (fun note => author (n_event note) <> username (self fr)) notes)) /\
  (test_mode (self fr) = true ->
   (forall raw ca t b,
      fromisoformat (replace_Z ca) = Some t -> (last_check (self fr) < t)%Z ->
      comment_event_id repo n raw ∉ processed_events (self fr) ->
      let own := mkRawComment (Some raw)
                   (Some (mkAuthor (Some (username (self fr))))) (Some ca) (Some b) in
      let te := (mkIdentity FromComment repo n raw,
                 mkPREvent n "comment" (username (self fr)) ca (Some (excerpt b))) in
      comment_body repo n own fr = Ret tt (push te fr) /\
      get_pr_comments repo n
        {| view_comments := GhJson (Some [own]); view_reviews := GhJson None |}
        (self fr)
      = Ret [te] (add_processed (comment_event_id repo n raw) (self fr)) /\
      (forall c ttl u,
         search c = GhJson [mkSearchItem (Some n) (Some ttl)
                              (Some (mkRepository (Some repo))) (Some u)] ->
         views c 0 = {| view_comments := GhJson (Some [own]);
                        view_reviews := GhJson None |} ->
         check_for_updates c (self fr)
         = Ret [{| n_tag := te.1; n_event := te.2;
                   n_flash := flash_for_event (self fr) te.2 (device c 0) |}]
               (set_last_check (now c)
                  (add_processed (comment_event_id repo n raw) (self fr))))) /\
   (forall raw sa t st rb,
      recognized_state st = true ->
      fromisoformat (replace_Z sa) = Some t -> (last_check (self fr) < t)%Z ->
      review_event_id repo n raw ∉ processed_events (self fr) ->
      let own := mkRawReview (Some raw)
                   (Some (mkAuthor (Some (username (self fr))))) (Some sa) (Some st)
                   rb in
      let te := (mkIdentity FromReview repo n raw,
                 mkPREvent n (review_event_type st) (username (self fr)) sa
                   (Some (default "" rb))) in
      review_body repo n own fr = Ret tt (push te fr) /\
      get_pr_comments repo n
        {| view_comments := GhJson None; view_reviews := GhJson (Some [own]) |}
        (self fr)
      = Ret [te] (add_processed (review_event_id repo n raw) (self fr)) /\
      (forall c ttl u,
         search c = GhJson [mkSearchItem (Some n) (Some ttl)
                              (Some (mkRepository (Some repo))) (Some u)] ->
         views c 0 = {| view_comments := GhJson None;
                        view_reviews := GhJson (Some [own]) |} ->
         check_for_updates c (self fr)
         = Ret [{| n_tag := te.1; n_event := te.2;
                   n_flash := flash_for_event (self fr) te.2 (device c 0) |}]
               (set_last_check (now c)
                  (add_processed (review_event_id repo n raw) (self fr))))) /\
   (forall c prs notes me' j pr acc m1 cs rs fr',
      get_user_prs (search c) (self fr) = Ret prs (self fr) ->
      check_for_updates c (self fr) = Ret notes me' ->
      prs !! j = Some pr ->
      fetch_all 0 (take j prs) (views c) [] (self fr) = Ret acc m1 ->
      view_comments (views c j) = GhJson (Some cs) ->
      view_reviews (views c j) = GhJson (Some rs) ->
      get_pr_comments_try (repository pr) (number pr) (views c j)
        {| self := m1; events := [] |} = Ret tt fr' ->
      (forall raw ca t b,
         mkRawComment (Some raw) (Some (mkAuthor (Some (username (self fr)))))
           (Some ca) (Some b) ∈ cs ->
         fromisoformat (replace_Z ca) = Some t -> (last_check (self fr) < t)%Z ->
         comment_event_id (repository pr) (number pr) raw
           ∉ processed_events (self fr) ->
         exists k note,
           notes !! k = Some note /\
           event_key (n_tag note)
           = comment_event_id (repository pr) (number pr) raw /\
           n_flash note = flash_for_event (self fr) (n_event note) (device c k)) /\
      (forall raw sa t st rb,
         mkRawReview (Some raw) (Some (mkAuthor (Some (username (self fr)))))
           (Some sa) (Some st) rb ∈ rs ->
         recognized_state st = true ->
         fromisoformat (replace_Z sa) = Some t -> (last_check (self fr) < t)%Z ->
         review_event_id (repository pr) (number pr) raw
           ∉ processed_events (self fr) ->
         exists k note,
           notes !! k = Some note /\
           event_key (n_tag note)
           = review_event_id (repository pr) (number pr) raw /\
           n_flash note = flash_for_event (self fr) (n_event note) (device c k)))).
Proof.
  split.
  - intros Hmode. split_and!.
    + intros c Hau.
      destruct (comment_body_cases repo n c fr) as [[? _]|(te & Hev & _)]; [done|].
      destruct Hev as (?&?&?&who&?&?&?&?&?&Hau'&Hne&_). simplify_eq.
      by destruct (Hne Hmode).
    + intros r Hau.
      destruct (review_body_cases repo n r fr) as [[? _]|(te & Hev & _)]; [done|].
      destruct Hev as (?&?&?&?&who&?&?&?&?&?&?&Hau'&Hne&_). simplify_eq.
      by destruct (Hne Hmode).
    + intros c notes me' Hr. pose proof (check_for_updates_spec c (self fr)) as Hc.
      rewrite Hr in Hc. destruct Hc as (new & me1 & _ & _ & Ha & _ & ->).
      apply Forall_fmap with (f := n_event)
        (P := fun ev => author ev <> username (self fr)).
      rewrite emit_events. apply Forall_fmap.
      eapply Forall_impl; [exact Ha|]. intros te (_ & Hne & _). by apply Hne.
  - intros Hmode. split_and!.
    + intros raw ca t b Ht Hlt Hfresh own te.
      assert (Hev : comment_event repo n own (self fr) te).
      { exists raw, ca, t, (username (self fr)), b. subst own te. simpl.
        split_and!; try done. by rewrite Hmode. }
      pose proof (get_pr_comments_single_comment repo n own (self fr) te Hev) as Hg.
      split_and!.
      * by apply comment_body_appends.
      * exact Hg.
      * intros c ttl u Hs Hv. rewrite <- Hv in Hg.
        by rewrite (check_for_updates_single c (self fr) n ttl repo u _ _ Hs Hg).
    + intros raw sa t st rb Hst Ht Hlt Hfresh own te.
      assert (Hev : review_event repo n own (self fr) te).
      { exists st, raw, sa, t, (username (self fr)). subst own te. simpl.
        split_and!; try done. by rewrite Hmode. }
      pose proof (get_pr_comments_single_review repo n own (self fr) te Hev) as Hg.
      split_and!.
      * by apply review_body_appends.
      * exact Hg.
      * intros c ttl u Hs Hv. rewrite <- Hv in Hg.
        by rewrite (check_for_updates_single c (self fr) n ttl repo u _ _ Hs Hg).
    + intros c prs notes me' j pr acc m1 cs rs fr' Hprs Hr Hj Hpre Hcs Hrs Htry.
      destruct (cycle_records_qualifying c (self fr) prs notes me' j pr acc m1 cs rs
                  fr' Hprs Hr Hj Hpre Hcs Hrs Htry) as [Hqc Hqr].
      split.
      * intros raw ca t b Hin Ht Hlt Hfresh. eapply Hqc; [exact Hin| |done].
        exists ca, t, (username (self fr)), b. split_and!; try done. by left.
      * intros raw sa t st rb Hin Hst Ht Hlt Hfresh. eapply Hqr; [exact Hin| |done].
        exists sa, t, (username (self fr)), st, rb. split_and!; try done. by left.
Qed.

(** ** Which exceptions leave a cycle *)









End Monitor.

(** * Checks on the sample inputs *)

(** C3 fails as stated: the reviews request fails, yet the call returns the
    event of the comment and has recorded its id. *)
Lemma partial_result_on_failure :
  retrieval_failed demo_fromisoformat "octo/repo" 7 reviews_fail_view demo_monitor /\
  returned_events
    (get_pr_comments demo_fromisoformat "octo/repo" 7 reviews_fail_view demo_monitor)
  = Some [mkPREvent 7 "comment" "hubot" "2024-05-01T10:00:00Z"
            (Some "Looks good to me")] /\
  elements (processed_events
    (final (get_pr_comments demo_fromisoformat "octo/repo" 7 reviews_fail_view
              demo_monitor)))
  = ["comment_octo/repo_7_IC_1"] /\
  elements (processed_events demo_monitor) = [].
Proof.
  split_and!; try by vm_compute.
  eexists _, _. split; [vm_compute; reflexivity|done].
Qed.

(** The same two answers polled twice: both events are notified in the first
    cycle, none in the second, although the watermark (09:30) is still
    behind them. *)
Lemma at_most_once_witness :
  NoDup (n_tag <$> (run demo_fromisoformat [demo_cycle; demo_cycle] demo_monitor).2) /\
  n_tag <$> (run demo_fromisoformat [demo_cycle; demo_cycle] demo_monitor).2 =
    [mkIdentity FromComment "octo/repo" 7 "IC_1";
     mkIdentity FromReview "octo/repo" 7 "PRR_2"].
Proof.
  split.
  - apply (at_most_once demo_fromisoformat [demo_cycle; demo_cycle] demo_monitor).
  - vm_compute. reflexivity.
Defined.

Lemma fetch_failure_keeps_prefix_witness :
  get_pr_comments demo_fromisoformat "octo/repo" 7 reviews_fail_view demo_monitor =
  get_pr_comments demo_fromisoformat "octo/repo" 7
    {| view_comments := view_comments reviews_fail_view;
       view_reviews := GhJson None |} demo_monitor.
Proof.
  apply (fetch_failure_keeps_prefix demo_fromisoformat "octo/repo" 7
           reviews_fail_view demo_monitor).
  left. reflexivity.
Defined.

(** C5 fails as stated: a comment without ['createdAt'] in front of a good
    comment leaves the good one unclassified, while the good one alone gives
    its event. *)
Lemma malformed_record_hides_later_ones :
  returned_events
    (get_pr_comments demo_fromisoformat "octo/repo" 7
       {| view_comments := GhJson (Some [broken_comment; hubot_comment]);
          view_reviews := GhJson (Some [approving_review]) |} demo_monitor)
  = Some [] /\
  returned_events
    (get_pr_comments demo_fromisoformat "octo/repo" 7
       {| view_comments := GhJson (Some [hubot_comment]);
          view_reviews := GhJson (Some []) |} demo_monitor)
  = Some [mkPREvent 7 "comment" "hubot" "2024-05-01T10:00:00Z"
            (Some "Looks good to me")].
Proof. split; vm_compute; reflexivity. Qed.

Lemma malformed_record_ends_batch_witness :
  get_pr_comments demo_fromisoformat "octo/repo" 7
    {| view_comments := GhJson (Some ([hubot_comment] ++ broken_comment :: [long_comment]));
       view_reviews := GhJson (Some [approving_review]) |} demo_monitor
  = Ret (events (final (for_each [hubot_comment]
                          (comment_body demo_fromisoformat "octo/repo" 7) demo_frame)))
        (self (final (for_each [hubot_comment]
                        (comment_body demo_fromisoformat "octo/repo" 7) demo_frame))).
Proof.
  apply (proj1 (malformed_record_ends_batch demo_fromisoformat "octo/repo" 7
                  demo_monitor))
    with (k := "createdAt")
         (fr' := final (for_each [hubot_comment]
                          (comment_body demo_fromisoformat "octo/repo" 7) demo_frame)).
  - vm_compute. reflexivity.
  - vm_compute. reflexivity.
Defined.

Lemma review_state_gating_witness :
  review_body demo_fromisoformat "octo/repo" 7 dismissed_review test_frame
  = Ret tt test_frame.
Proof.
  apply (proj1 (review_state_gating demo_fromisoformat "octo/repo" 7 test_frame
                  dismissed_review "DISMISSED" eq_refl)).
  vm_compute. intros H. repeat (inversion_clear H as [|? ? ? H0]; rename H0 into H).
Defined.

Lemma degraded_cycle_notifications :
  match check_for_updates demo_fromisoformat degraded_cycle demo_monitor with
  | Ret notes me' =>
      n_tag <$> notes = [mkIdentity FromComment "octo/other" 3 "IC_1";
                         mkIdentity FromReview "octo/other" 3 "PRR_2"] /\
      n_flash <$> notes = [PlayFailed "3, #0000FF,0.3,0, #000000,0.3,0";
                           PlayFailed "5, #00FF00,0.5,0, #000000,0.2,0"] /\
      last_check me' = 1714568400000000%Z
  | Raise _ _ => False
  end.
Proof. vm_compute. repeat split. Qed.

(** In test mode the user's own new comment appends its event. *)
Lemma test_mode_bypasses_only_author_filter_witness :
  comment_body demo_fromisoformat "octo/repo" 7 own_comment test_frame =
  Ret tt (push (mkIdentity FromComment "octo/repo" 7 "IC_2",
                mkPREvent 7 "comment" "octocat" "2024-05-01T12:00:00Z"
                  (Some "Thanks!")) test_frame).
Proof.
  apply (proj1 (test_mode_bypasses_only_author_filter demo_fromisoformat
                  "octo/repo" 7 test_frame)).
  exists "IC_2", "2024-05-01T12:00:00Z", 1714564800000000%Z, "octocat", "Thanks!".
  split_and!;
    [reflexivity | vm_compute; reflexivity | reflexivity
    | apply not_elem_of_empty | left; reflexivity | reflexivity].
Defined.

(** C6 fails as stated: with the device unreachable and [gh] ready,
    construction gives a monitor. *)
Lemma startup_survives_missing_device :
  ~ startup_fails
      (__init__ "octocat" 60 false 1714557600000000 ConnectionFailed AuthOk) /\
  __init__ "octocat" 60 false 1714557600000000 ConnectionFailed AuthOk =
    Ret tt {| username := "octocat"; poll_interval := 60; test_mode := false;
              processed_events := ∅; last_check := 1714554000000000;
              blink1 := None |}.
Proof. split; [|reflexivity]. by intros (e & m & ?). Qed.

Lemma device_unavailable_is_not_fatal_witness :
  flash_for_event (self test_frame)
    (mkPREvent 7 "approved" "hubot" "2024-05-01T12:00:00Z" (Some ""))
    (fun _ => true) = NoDevice /\
  startup_fails
    (__init__ "octocat" 60 false 1714557600000000 ConnectionFailed
       AuthFileNotFoundError).
Proof.
  split.
  - apply (device_unavailable_is_not_fatal demo_fromisoformat "octocat" 60 false 0).
    reflexivity.
  - apply (device_unavailable_is_not_fatal demo_fromisoformat "octocat" 60 false
             1714557600000000).
    discriminate.
Defined.

(** C4 at its failing input.  A review whose body has 101 characters gives
    an event with all 101 of them, not the 100-character excerpt with its
    marker that the same body gets on a comment. *)
Theorem review_body_is_not_truncated :
  String.length long_body = 101%nat /\
  returned_events
    (get_pr_comments demo_fromisoformat "octo/repo" 7
       {| view_comments := GhJson (Some []);
          view_reviews := GhJson (Some [long_review]) |} demo_monitor)
  = Some [mkPREvent 7 "approved" "hubot" "2024-05-01T10:00:00Z" (Some long_body)] /\
  returned_events
    (get_pr_comments demo_fromisoformat "octo/repo" 7
       {| view_comments := GhJson (Some [long_comment]);
          view_reviews := GhJson (Some []) |} demo_monitor)
  = Some [mkPREvent 7 "comment" "hubot" "2024-05-01T10:00:00Z"
            (Some (excerpt long_body))] /\
  excerpt long_body = substring 0 100 long_body +:+ "..." /\
  String.length (substring 0 100 long_body) = 100%nat /\
  long_body <> excerpt long_body.
Proof. split_and!; try (vm_compute; reflexivity). by vm_compute. Qed.

(** With [test_mode] on, the monitored user's own comment is flashed (blue)
    by the cycle and its id recorded; with it off, the same comment leaves
    the frame as it was. *)
Lemma self_filter_witness :
  check_for_updates demo_fromisoformat own_cycle test_monitor
  = Ret [{| n_tag := mkIdentity FromComment "octo/repo" 7 "IC_2";
            n_event := mkPREvent 7 "comment" "octocat" "2024-05-01T12:00:00Z"
                         (Some "Thanks!");
            n_flash := Played "3, #0000FF,0.3,0, #000000,0.3,0" |}]
        (set_last_check (now own_cycle)
           (add_processed "comment_octo/repo_7_IC_2" test_monitor)) /\
  final (comment_body demo_fromisoformat "octo/repo" 7 own_comment demo_frame)
  = demo_frame.
Proof.
  split.
  - apply (proj2 (proj2
             (proj1 (proj2 (self_filter demo_fromisoformat "octo/repo" 7
                              {| self := test_monitor; events := [] |}) eq_refl)
                "IC_2" "2024-05-01T12:00:00Z" 1714564800000000%Z "Thanks!"
                eq_refl eq_refl (not_elem_of_empty _)))
           own_cycle "Fix the fetcher" "https://github.com/octo/repo/pull/7"
           eq_refl eq_refl).
  - apply (proj1 (proj1 (self_filter demo_fromisoformat "octo/repo" 7 demo_frame)
                    eq_refl)).
    reflexivity.
Defined.



(** * Checks of the further properties on the sample inputs *)

Lemma failed_search_skips_the_cycle_witness :
  check_for_updates demo_fromisoformat outage_cycle demo_monitor =
  Ret [] (set_last_check (now outage_cycle) demo_monitor).
Proof.
  apply (failed_search_skips_the_cycle demo_fromisoformat outage_cycle demo_monitor).
  left. reflexivity.
Defined.

Lemma get_user_prs_translates_items_witness :
  demo_monitor = demo_monitor /\
  Forall2 (fun item pr =>
             item = mkSearchItem (Some (number pr)) (Some (title pr))
                      (Some (mkRepository (Some (repository pr)))) (Some (url pr)))
          [demo_item "octo/repo" 7] [demo_pr].
Proof.
  apply (get_user_prs_translates_items demo_fromisoformat
           [demo_item "octo/repo" 7] demo_monitor [demo_pr] demo_monitor).
  reflexivity.
Defined.

Lemma incomplete_search_item_aborts_cycle_witness :
  exists k,
    get_user_prs (search numberless_cycle) demo_monitor
      = Raise (KeyError k) demo_monitor /\
    check_for_updates demo_fromisoformat numberless_cycle demo_monitor
      = Raise (KeyError k) demo_monitor /\
    run demo_fromisoformat (numberless_cycle :: [demo_cycle]) demo_monitor
      = run demo_fromisoformat [demo_cycle] demo_monitor.
Proof.
  apply (incomplete_search_item_aborts_cycle demo_fromisoformat numberless_cycle
           [demo_item "octo/repo" 7; numberless_item] demo_monitor [demo_cycle]).
  - reflexivity.
  - apply Exists_cons_tl, Exists_cons_hd. left. reflexivity.
Defined.

Lemma notified_events_have_patterns_witness :
  Forall (fun note =>
            exists p,
              pattern_table (event_type (n_event note)) p /\
              (n_flash note = Played p \/ n_flash note = PlayFailed p))
         (result_list (check_for_updates demo_fromisoformat demo_cycle demo_monitor)).
Proof.
  apply (notified_events_have_patterns demo_fromisoformat demo_cycle demo_monitor
           (mkBlink1 "2000ABCD")
           (result_list (check_for_updates demo_fromisoformat demo_cycle demo_monitor))
           (final (check_for_updates demo_fromisoformat demo_cycle demo_monitor))).
  - reflexivity.
  - vm_compute. reflexivity.
Defined.

Lemma events_keep_fetch_order_witness :
  exists ce re,
    result_list (get_pr_comments demo_fromisoformat "octo/repo" 7 full_view demo_monitor)
      = ce ++ re /\
    Forall (fun te => origin te.1 = FromComment) ce /\
    sublist (raw_ids ce) (c_id <$> comments_of full_view) /\
    Forall (fun te => origin te.1 = FromReview) re /\
    sublist (raw_ids re) (r_id <$> reviews_of full_view).
Proof.
  apply (proj1 (events_keep_fetch_order demo_fromisoformat) "octo/repo" 7%Z full_view
           demo_monitor _
           (final (get_pr_comments demo_fromisoformat "octo/repo" 7 full_view
                     demo_monitor))).
  vm_compute. reflexivity.
Defined.

(** The first pull request of the aborted cycle had given two events; their
    ids are recorded, and the next cycle, which fetches the same records,
    notifies nothing. *)
Lemma aborted_cycle_loses_events_witness :
  (run demo_fromisoformat (aborting_cycle :: [demo_cycle]) demo_monitor
   = run demo_fromisoformat [demo_cycle]
       (final (check_for_updates demo_fromisoformat aborting_cycle demo_monitor)) /\
   last_check (final (check_for_updates demo_fromisoformat aborting_cycle demo_monitor))
   = last_check demo_monitor /\
   processed_events demo_monitor
     ⊆ processed_events
         (final (check_for_updates demo_fromisoformat aborting_cycle demo_monitor)) /\
   (forall note,
      note ∈ (run demo_fromisoformat (aborting_cycle :: [demo_cycle]) demo_monitor).2 ->
      event_key (n_tag note)
        ∉ processed_events
            (final (check_for_updates demo_fromisoformat aborting_cycle
                      demo_monitor)))) /\
  elements (processed_events
              (final (check_for_updates demo_fromisoformat aborting_cycle
                        demo_monitor)))
  = ["comment_octo/repo_7_IC_1"; "review_octo/repo_7_PRR_2"] /\
  (run demo_fromisoformat (aborting_cycle :: [demo_cycle]) demo_monitor).2 = [].
Proof.
  split; [|split; vm_compute; reflexivity].
  apply (aborted_cycle_loses_events demo_fromisoformat aborting_cycle demo_monitor
           ValueError).
  vm_compute. reflexivity.
Defined.

Lemma watermark_follows_clock_witness :
  (last_check demo_monitor
   <= last_check (run demo_fromisoformat [demo_cycle] demo_monitor).1)%Z.
Proof.
  apply (watermark_follows_clock demo_fromisoformat [demo_cycle] demo_monitor).
  intros c Hc. apply list_elem_of_singleton in Hc. subst c.
  vm_compute. discriminate.
Defined.

(** Built at 10:30: the comment of 10:00 is inside the hour. *)
Lemma startup_looks_back_one_hour_witness :
  returned_events
    (get_pr_comments demo_fromisoformat "octo/repo" 7
       {| view_comments :=
            GhJson (Some [mkRawComment (Some "IC_1") (Some (mkAuthor (Some "hubot")))
                            (Some "2024-05-01T10:00:00Z") (Some "Looks good to me")]);
          view_reviews := GhJson None |}
       (final (__init__ "octocat" 60 false 1714559400000000 ConnectionFailed AuthOk)))
  = Some (if (1714559400000000 - one_hour <? 1714557600000000)%Z
          then [mkPREvent 7 "comment" "hubot" "2024-05-01T10:00:00Z"
                  (Some (excerpt "Looks good to me"))]
          else []).
Proof.
  apply (startup_looks_back_one_hour demo_fromisoformat "octocat" 60
           1714559400000000 ConnectionFailed).
  - reflexivity.
  - discriminate.
  - vm_compute. reflexivity.
Defined.

Lemma refetch_is_silent_witness :
  get_pr_comments demo_fromisoformat "octo/repo" 7 full_view
    (final (get_pr_comments demo_fromisoformat "octo/repo" 7 full_view demo_monitor))
  = Ret []
      (final (get_pr_comments demo_fromisoformat "octo/repo" 7 full_view demo_monitor)).
Proof.
  apply (refetch_is_silent demo_fromisoformat "octo/repo" 7 full_view demo_monitor
           (result_list (get_pr_comments demo_fromisoformat "octo/repo" 7 full_view
                           demo_monitor))).
  vm_compute. reflexivity.
Defined.

Lemma event_ids_within_a_pull_request_witness :
  comment_event_id "octo/repo" 7 "IC_1" <> review_event_id "octo/repo" 7 "IC_1".
Proof. apply event_ids_within_a_pull_request. Defined.


(** No [--username], [GITHUB_USERNAME=octocat]: the monitor runs as
    octocat, in test mode, polling every 30 seconds. *)
Lemma main_username_resolution_witness :
  a_test demo_args = false /\ AuthOk = AuthOk /\
  poll_interval
    (run demo_fromisoformat [demo_cycle]
       (final (__init__ "octocat" 30 true 1714559400000000 ConnectionFailed AuthOk))).1
  = a_interval demo_args /\
  test_mode
    (run demo_fromisoformat [demo_cycle]
       (final (__init__ "octocat" 30 true 1714559400000000 ConnectionFailed AuthOk))).1
  = a_test_mode demo_args /\
  ((truthy (a_username demo_args) = true /\
    a_username demo_args
    = Some (username
              (run demo_fromisoformat [demo_cycle]
                 (final (__init__ "octocat" 30 true 1714559400000000
                           ConnectionFailed AuthOk))).1)) \/
   (truthy (a_username demo_args) = false /\ truthy (Some "octocat") = true /\
    Some "octocat"
    = Some (username
              (run demo_fromisoformat [demo_cycle]
                 (final (__init__ "octocat" 30 true 1714559400000000
                           ConnectionFailed AuthOk))).1)) \/
   (truthy (a_username demo_args) = false /\ truthy (Some "octocat") = false /\
    exists out,
      UserCalledProcessError = UserStdout out /\
      username
        (run demo_fromisoformat [demo_cycle]
           (final (__init__ "octocat" 30 true 1714559400000000
                     ConnectionFailed AuthOk))).1
      = demo_strip out)).
Proof.
  apply (proj2 (main_username_resolution demo_fromisoformat demo_strip demo_args
                  (Some "octocat") UserCalledProcessError 1714559400000000
                  ConnectionFailed (fun _ => true) AuthOk [demo_cycle]))
    with (notes := (run demo_fromisoformat [demo_cycle]
                      (final (__init__ "octocat" 30 true 1714559400000000
                                ConnectionFailed AuthOk))).2).
  vm_compute. reflexivity.
Defined.

Lemma qualifying_records_are_reported_witness :
  comment_event_id "octo/repo" 7 "IC_1"
    ∈ keys_of (events (final (get_pr_comments_try demo_fromisoformat "octo/repo" 7
                                full_view demo_frame))).
Proof.
  apply (proj1 (proj2 (qualifying_records_are_reported demo_fromisoformat
                         "octo/repo" 7 full_view demo_monitor
                         [hubot_comment] [approving_review]
                         (final (get_pr_comments_try demo_fromisoformat "octo/repo" 7
                                   full_view demo_frame))
                         eq_refl eq_refl ltac:(vm_compute; reflexivity)))
           hubot_comment "IC_1").
  - apply list_elem_of_singleton. reflexivity.
  - exists "2024-05-01T10:00:00Z", 1714557600000000%Z, "hubot", "Looks good to me".
    split_and!; [reflexivity|vm_compute; reflexivity|reflexivity|].
    right. discriminate.
  - apply not_elem_of_empty.
Defined.

Lemma comment_excerpt_is_bounded_witness :
  exists b e,
    c_body long_comment = Some b /\
    body (mkPREvent 7 "comment" "hubot" "2024-05-01T10:00:00Z"
            (Some (excerpt long_body))) = Some e /\
    (String.length e <= 103)%nat /\
    ((String.length b <= 100)%nat -> e = b) /\
    ((100 < String.length b)%nat ->
     String.length e = 103%nat /\
     exists head rest,
       b = head +:+ rest /\ String.length head = 100%nat /\ e = head +:+ "...").
Proof.
  apply (comment_excerpt_is_bounded demo_fromisoformat "octo/repo" 7 long_comment
           demo_frame
           (mkIdentity FromComment "octo/repo" 7 "IC_9",
            mkPREvent 7 "comment" "hubot" "2024-05-01T10:00:00Z"
              (Some (excerpt long_body)))).
  vm_compute. reflexivity.
Defined.

Lemma completed_cycle_records_what_it_notifies_witness :
  size (processed_events
          (final (check_for_updates demo_fromisoformat demo_cycle demo_monitor)))
  = length (result_list (check_for_updates demo_fromisoformat demo_cycle demo_monitor))
    + size (processed_events demo_monitor).
Proof.
  apply (completed_cycle_records_what_it_notifies demo_fromisoformat demo_cycle
           demo_monitor
           (result_list (check_for_updates demo_fromisoformat demo_cycle demo_monitor))
           (final (check_for_updates demo_fromisoformat demo_cycle demo_monitor))).
  vm_compute. reflexivity.
Defined.

(** [--test] with a device that fails on the first pattern, and no [gh] at
    all: exit code 0. *)
Lemma self_test_never_starts_the_monitor_witness :
  main demo_fromisoformat demo_strip test_args None UserFileNotFoundError
    1714559400000000 (Connected (mkBlink1 "2000ABCD")) (fun _ => false)
    AuthFileNotFoundError [demo_cycle]
  = ExitAfterTest false.
Proof.
  apply (self_test_never_starts_the_monitor demo_fromisoformat demo_strip test_args
           None UserFileNotFoundError 1714559400000000
           (Connected (mkBlink1 "2000ABCD")) (fun _ => false)
           AuthFileNotFoundError [demo_cycle] eq_refl).
  left. reflexivity.
Defined.

Lemma qualifying_records_are_notified_witness :
  review_event_id "octo/repo" 7 "PRR_2"
    ∈ event_key <$>
        (n_tag <$> result_list
                     (check_for_updates demo_fromisoformat demo_cycle demo_monitor)).
Proof.
  apply (proj2 (qualifying_records_are_notified demo_fromisoformat demo_cycle
                  demo_monitor [demo_pr]
                  (result_list (check_for_updates demo_fromisoformat demo_cycle
                                  demo_monitor))
                  (final (check_for_updates demo_fromisoformat demo_cycle demo_monitor))
                  0 demo_pr [] demo_monitor [hubot_comment] [approving_review]
                  (final (get_pr_comments_try demo_fromisoformat "octo/repo" 7
                            full_view demo_frame))
                  eq_refl ltac:(vm_compute; reflexivity) eq_refl eq_refl eq_refl
                  eq_refl ltac:(vm_compute; reflexivity))
           approving_review "PRR_2").
  - apply list_elem_of_singleton. reflexivity.
  - exists "2024-05-01T12:00:00Z", 1714564800000000%Z, "hubot", "APPROVED", (Some "").
    split_and!; [reflexivity|vm_compute; reflexivity|vm_compute; reflexivity
                |reflexivity|].
    right. discriminate.
  - apply not_elem_of_empty.
Defined.


Lemma gh_failure_stops_startup_witness :
  main demo_fromisoformat demo_strip demo_args (Some "octocat") UserCalledProcessError
    1714559400000000 (Connected (mkBlink1 "2000ABCD")) (fun _ => true)
    AuthCalledProcessError [demo_cycle]
  = Uncaught (Exception "gh CLI authentication required").
Proof.
  apply (gh_failure_stops_startup demo_fromisoformat demo_strip demo_args
           (Some "octocat") UserCalledProcessError 1714559400000000
           (Connected (mkBlink1 "2000ABCD")) (fun _ => true)
           AuthCalledProcessError [demo_cycle] "octocat" eq_refl eq_refl).
  reflexivity.
Defined.
